(** * Analysis core of the portfolio dashboard (app.py)

    A shallow embedding of the statistical core of [app.py]:
    [carregar_excel], [tabela_tipos], [estatisticas_basicas], [ic_media],
    [amostrar_df] and the Welch panel, together with the part of pandas,
    numpy and scipy those functions call.

    Numbers.  A Python/numpy float is modelled by [float]: a real number,
    one of the two infinities, or NaN.  Arithmetic on finite values is exact
    real arithmetic; rounding, overflow and the sign of zero of binary64 are
    outside the model (a zero divisor is read as +0.0, which is what
    [np.sqrt] produces in the one place the code divides by a possible zero).

    Libraries.  What the code obtains from scipy's distribution functions,
    from the random generator and from the text parsers of pandas is taken
    as a section variable; the elementwise and reduction operations of
    pandas that the code relies on (to_numeric, dropna, count, mean, std,
    var, median, min, max, isna) are written out.

    Tables.  A column label is a string, as the headers of a sheet usually
    are; a table with a label of another type (a number in the header row)
    is outside the model. *)

From Stdlib Require Import String Ascii ZArith Bool Arith Reals Lra Lia List.
From Stdlib Require Import Sorting.Permutation Sorting.Sorted.
Import ListNotations.

(** ** Floats *)

Module F64.

Inductive float : Type :=
| NaN
| PInf
| NInf
| Fin (x : R).

Definition Rltb (x y : R) : bool := if Rlt_dec x y then true else false.
Definition Reqb (x y : R) : bool := if Req_dec_T x y then true else false.

Definition isnan (a : float) : bool :=
  match a with NaN => true | _ => false end.

Definition of_nat (n : nat) : float := Fin (INR n).
Definition of_Z (z : Z) : float := Fin (IZR z).

(** An infinity carrying the sign of [x] times the sign [neg] ([x <> 0]). *)
Definition inf_signed (neg : bool) (x : R) : float :=
  if xorb neg (Rltb x 0) then NInf else PInf.

Definition fneg (a : float) : float :=
  match a with
  | NaN => NaN
  | PInf => NInf
  | NInf => PInf
  | Fin x => Fin (- x)
  end.

Definition fabs (a : float) : float :=
  match a with
  | NaN => NaN
  | PInf | NInf => PInf
  | Fin x => Fin (Rabs x)
  end.

Definition fadd (a b : float) : float :=
  match a, b with
  | NaN, _ | _, NaN => NaN
  | PInf, NInf | NInf, PInf => NaN
  | PInf, _ | _, PInf => PInf
  | NInf, _ | _, NInf => NInf
  | Fin x, Fin y => Fin (x + y)
  end.

Definition fsub (a b : float) : float := fadd a (fneg b).

Definition fmul (a b : float) : float :=
  match a, b with
  | NaN, _ | _, NaN => NaN
  | PInf, PInf | NInf, NInf => PInf
  | PInf, NInf | NInf, PInf => NInf
  | PInf, Fin y | Fin y, PInf => if Reqb y 0 then NaN else inf_signed false y
  | NInf, Fin y | Fin y, NInf => if Reqb y 0 then NaN else inf_signed true y
  | Fin x, Fin y => Fin (x * y)
  end.

(** Division; a finite zero divisor is +0.0. *)
Definition fdiv (a b : float) : float :=
  match a, b with
  | NaN, _ | _, NaN => NaN
  | (PInf | NInf), (PInf | NInf) => NaN
  | PInf, Fin y => inf_signed false y
  | NInf, Fin y => inf_signed true y
  | Fin _, (PInf | NInf) => Fin 0
  | Fin x, Fin y =>
      if Reqb y 0
      then (if Reqb x 0 then NaN else inf_signed false x)
      else Fin (x / y)
  end.

Definition fsqrt (a : float) : float :=
  match a with
  | NaN | NInf => NaN
  | PInf => PInf
  | Fin x => if Rltb x 0 then NaN else Fin (sqrt x)
  end.

(** Comparisons: every comparison with NaN is false. *)
Definition flt (a b : float) : bool :=
  match a, b with
  | NaN, _ | _, NaN => false
  | _, NInf | PInf, _ => false
  | NInf, _ | _, PInf => true
  | Fin x, Fin y => Rltb x y
  end.

Definition feq (a b : float) : bool :=
  match a, b with
  | PInf, PInf | NInf, NInf => true
  | Fin x, Fin y => Reqb x y
  | _, _ => false
  end.

Definition fle (a b : float) : bool := flt a b || feq a b.

(** [np.minimum]/[np.maximum] on values that are not NaN. *)
Definition fmin (a b : float) : float := if flt b a then b else a.
Definition fmax (a b : float) : float := if flt a b then b else a.


End F64.
Import F64.

(** Decide every real test met in the goal, keeping the consistent cases. *)
Ltac rtests_step :=
  unfold inf_signed, Reqb, Rltb in *;
  repeat match goal with
    | |- context [Req_dec_T ?a ?b] => destruct (Req_dec_T a b)
    | |- context [Rlt_dec ?a ?b] => destruct (Rlt_dec a b)
    | H : context [Req_dec_T ?a ?b] |- _ => destruct (Req_dec_T a b)
    | H : context [Rlt_dec ?a ?b] |- _ => destruct (Rlt_dec a b)
    end;
  simpl in *.

Ltac rtests := repeat (progress rtests_step).

Ltac fcases :=
  simpl in *; rtests;
  try reflexivity; try discriminate; try congruence;
  try (exfalso; lra); try (f_equal; lra).

(** ** Exceptions and results *)

Inductive exn : Type :=
| FileNotFoundError
| KeyError (label : string)
| NotASeries (label : string)
| IndexError
| ValueError
| LibraryError (what : string).

Inductive result (A : Type) : Type :=
| Ok (a : A)
| Raise (e : exn).

Arguments Ok {A} a.
Arguments Raise {A} e.

Definition bind {A B : Type} (r : result A) (k : A -> result B) : result B :=
  match r with
  | Ok a => k a
  | Raise e => Raise e
  end.

Notation "x <- r ;; k" := (bind r (fun x => k))
  (at level 61, r at next level, right associativity).

Fixpoint mapM {A B : Type} (f : A -> result B) (l : list A) : result (list B) :=
  match l with
  | [] => Ok []
  | a :: l' => b <- f a ;; bs <- mapM f l' ;; Ok (b :: bs)
  end.

(** ** Strings: [str.lower], [in], and the pattern [^Unnamed] *)

Definition lower_ascii (c : ascii) : ascii :=
  let n := nat_of_ascii c in
  if (65 <=? n)%nat && (n <=? 90)%nat then ascii_of_nat (n + 32) else c.

Fixpoint lower (s : string) : string :=
  match s with
  | EmptyString => EmptyString
  | String c s' => String (lower_ascii c) (lower s')
  end.

(** [sub in s] *)
Fixpoint contains (sub s : string) : bool :=
  String.prefix sub s ||
  match s with
  | EmptyString => false
  | String _ s' => contains sub s'
  end.

(** ** Cells, columns and tables *)

Inductive cell : Type :=
| CNum (x : float)       (* a number; NaN is a missing number *)
| CStr (s : string)      (* text *)
| CTime (t : Z)          (* a timestamp, nanoseconds since the epoch *)
| CNaT                   (* the missing timestamp *)
| CNA.                   (* None, pd.NA *)

Record column : Type := mkColumn {
  dtype : string;
  cells : list cell
}.

Record DataFrame : Type := mkDataFrame {
  index : list Z;
  columns : list (string * column)
}.

(** The integer that stands for the missing timestamp. *)
Definition iNaT : Z := (- 9223372036854775808)%Z.

Definition len (df : DataFrame) : nat := length (index df).
Definition names (df : DataFrame) : list string := map fst (columns df).

(** Every column has one cell per row. *)
Definition aligned (df : DataFrame) : Prop :=
  Forall (fun p => length (cells (snd p)) = len df) (columns df).

(** [df[c]]: the column labelled [c].  A label that occurs more than once
    selects a DataFrame, which none of the callers below accepts. *)
Definition getitem (df : DataFrame) (c : string) : result column :=
  match filter (fun p => String.eqb (fst p) c) (columns df) with
  | [] => Raise (KeyError c)
  | [p] => Ok (snd p)
  | _ :: _ :: _ => Raise (NotASeries c)
  end.

(** [df[c] = col] for a label already present. *)
Definition setitem (df : DataFrame) (c : string) (col : column) : DataFrame :=
  mkDataFrame (index df)
    (map (fun p => if String.eqb (fst p) c then (fst p, col) else p) (columns df)).

(** [df.loc[:, mask]] with one boolean per column label. *)
Definition select_columns (keep : string -> bool) (df : DataFrame) : DataFrame :=
  mkDataFrame (index df) (filter (fun p => keep (fst p)) (columns df)).

Definition isna (c : cell) : bool :=
  match c with
  | CNum x => isnan x
  | CNaT | CNA => true
  | _ => false
  end.

(** [s[mask]]: the entries whose mask is [True]. *)
Fixpoint boolean_mask {A : Type} (mask : list bool) (l : list A) : list A :=
  match mask, l with
  | m :: mask', a :: l' =>
      if m then a :: boolean_mask mask' l' else boolean_mask mask' l'
  | _, _ => []
  end.

(** Positional selection; a position out of range is an error. *)
Definition take_list {A : Type} (l : list A) (locs : list nat) : result (list A) :=
  mapM (fun i => match nth_error l i with
                 | Some a => Ok a
                 | None => Raise IndexError
                 end) locs.

Definition take (df : DataFrame) (locs : list nat) : result DataFrame :=
  idx <- take_list (index df) locs ;;
  cols <- mapM (fun p => cs <- take_list (cells (snd p)) locs ;;
                         Ok (fst p, mkColumn (dtype (snd p)) cs)) (columns df) ;;
  Ok (mkDataFrame idx cols).

(** ** numpy reductions on an array without missing entries *)

Module Np.

Definition sum (a : list float) : float := fold_right fadd (Fin 0) a.

Definition mean (a : list float) : float := fdiv (sum a) (of_nat (length a)).

Definition var (ddof : nat) (a : list float) : float :=
  let m := mean a in
  fdiv (sum (map (fun x => fmul (fsub x m) (fsub x m)) a))
       (of_nat (length a - ddof)).

End Np.

(** ** Reductions of a numeric Series (pandas, [skipna=True]) *)

Module Series.

Definition dropna (s : list float) : list float :=
  filter (fun x => negb (isnan x)) s.

Definition count (s : list float) : nat := length (dropna s).

(** Sum with the missing entries replaced by 0. *)
Definition sum (s : list float) : float :=
  Np.sum (map (fun x => if isnan x then Fin 0 else x) s).

Definition mean (s : list float) : float :=
  match count s with
  | O => NaN
  | n => fdiv (sum s) (of_nat n)
  end.

(** Squared deviations from [avg], 0 at the missing entries. *)
Definition sqdev (avg : float) (s : list float) : list float :=
  map (fun x => if isnan x then Fin 0
                else fmul (fsub avg x) (fsub avg x)) s.

Definition var (ddof : nat) (s : list float) : float :=
  let n := count s in
  if (n <=? ddof)%nat then NaN
  else fdiv (Np.sum (sqdev (fdiv (sum s) (of_nat n)) s)) (of_nat (n - ddof)).

Definition std (ddof : nat) (s : list float) : float := fsqrt (var ddof s).

Definition min (s : list float) : float :=
  match dropna s with
  | [] => NaN
  | x :: xs => fold_left fmin xs x
  end.

Definition max (s : list float) : float :=
  match dropna s with
  | [] => NaN
  | x :: xs => fold_left fmax xs x
  end.

Fixpoint insert (x : float) (l : list float) : list float :=
  match l with
  | [] => [x]
  | y :: l' => if fle x y then x :: l else y :: insert x l'
  end.

Definition sort_values (l : list float) : list float :=
  fold_right insert [] l.

(** The middle of the sorted non-missing values; the mean of the two
    middle ones when their number is even. *)
Definition median (s : list float) : float :=
  let l := sort_values (dropna s) in
  let n := length l in
  match n with
  | O => NaN
  | _ =>
      if Nat.odd n then nth (n / 2) l NaN
      else fdiv (fadd (nth (n / 2 - 1) l NaN) (nth (n / 2) l NaN)) (Fin 2)
  end.

End Series.

(** ** Python's [round(x, 2)] *)

(** The integer nearest to [x], ties to the even one. *)
Definition round_half_even (x : R) : Z :=
  let f := (up x - 1)%Z in
  let d := (x - IZR f)%R in
  if Rltb d (1 / 2) then f
  else if Rltb (1 / 2) d then (f + 1)%Z
  else if Z.even f then f else (f + 1)%Z.

Definition round2 (a : float) : float :=
  match a with
  | Fin x => Fin (IZR (round_half_even (x * 100)) / 100)
  | _ => a
  end.

(** ** Sample inputs

    Concrete library behaviours and tables at which the statements proved
    below are exercised. *)

Module Sample.

(** A text-to-number parser that knows two numerals. *)
Definition parse_float (s : string) : option float :=
  if String.eqb s "7" then Some (Fin 7)
  else if String.eqb s "2.5" then Some (Fin (5 / 2))
  else None.

Definition astype_str (c : cell) : string :=
  match c with
  | CStr s => s
  | _ => "nan"
  end.

(** Student's t with two degrees of freedom has a closed-form quantile
    and distribution function; they are used here whatever [df] is. *)
Definition t_ppf (p : R) (df : nat) : float :=
  Fin ((2 * p - 1) / sqrt (2 * p * (1 - p))).

Definition stdtr (df t : float) : float :=
  match t with
  | NaN => NaN
  | PInf => Fin 1
  | NInf => Fin 0
  | Fin x => Fin (1 / 2 + x / (2 * sqrt (x * x + 2)))
  end.

(** A generator whose state is a number: it draws the first or the last
    [n] positions. *)
Definition rng : Type := nat.
Definition RandomState (seed : Z) : rng := Z.to_nat (Z.abs seed).
Definition rng_choice (st : rng) (len n : nat) : list nat :=
  if Nat.even st then seq 0 n else seq (len - n) n.

(** A date parser that knows one date. *)
Definition parse_datetime (c : cell) : option Z :=
  match c with
  | CTime t => Some t
  | CStr s => if String.eqb s "2024-01-05" then Some 1704412800000000000%Z
              else None
  | _ => None
  end.

Definition to_datetime_raises (_ : column) : bool := false.

(** A file is the table it holds. *)
Definition read_excel (f : DataFrame) : result DataFrame := Ok f.

Definition num (z : Z) : cell := CNum (Fin (IZR z)).

(** Orders: a text column of dates in which one entry is not a date, a
    Portuguese-named date column, and an unnamed column. *)
Definition pedidos : DataFrame :=
  mkDataFrame [0; 1]%Z
    [("OrderDate", mkColumn "string" [CStr "2024-01-05"; CStr "unknown"]);
     ("Data_Pedido", mkColumn "string" [CStr "2024-01-05"; CStr "unknown"]);
     ("Unnamed: 2", mkColumn "Float64" [CNA; CNA])]%string.

(** Quantities, with one text entry and one missing entry. *)
Definition estoque : DataFrame :=
  mkDataFrame [0; 1; 2; 3; 4; 5; 6; 7]%Z
    [("Qty", mkColumn "object"
               [num 1; num 2; CStr "n/d"; num 3; num 4; CNA; num 5; num 100])]%string.

(** Two groups of four values. *)
Definition vendas : DataFrame :=
  mkDataFrame [0; 1; 2; 3; 4; 5; 6; 7]%Z
    [("Categoria", mkColumn "string"
        [CStr "A"; CStr "A"; CStr "A"; CStr "A";
         CStr "B"; CStr "B"; CStr "B"; CStr "B"]);
     ("Valor", mkColumn "Float64"
        [num 10; num 12; num 11; num 13; num 20; num 22; num 21; num 19])]%string.


(** The quantities again, with the rows in reverse order. *)
Definition estoque_invertido : DataFrame :=
  mkDataFrame [7; 6; 5; 4; 3; 2; 1; 0]%Z
    [("Qty", mkColumn "object"
               [num 100; num 5; CNA; num 4; num 3; CStr "n/d"; num 2; num 1])]%string.

(** A table with two columns and no rows. *)
Definition vazio : DataFrame :=
  mkDataFrame [] [("Qty", mkColumn "Int64" []); ("Status", mkColumn "string" [])]%string.

End Sample.

(** ** The functions of app.py *)

Section App.

Set Default Proof Using "Type".

(** *** What the libraries supply *)

(** The text-to-number parser behind [pd.to_numeric]: [None] when the text
    is not a number. *)
Variable parse_float : string -> option float.

(** The element parser behind [pd.to_datetime]: [None] when the cell is not
    a date. *)
Variable parse_datetime : cell -> option Z.

(** Whether the call [pd.to_datetime(col, errors="coerce", dayfirst=False,
    infer_datetime_format=True)] raises on this column. *)
Variable to_datetime_raises : column -> bool.

(** [str(x)] of a cell, as [astype(str)] applies it. *)
Variable astype_str : cell -> string.

(** [scipy.stats.t.ppf(q, df)]: the quantile function of Student's t. *)
Variable t_ppf : R -> nat -> float.

(** [scipy.special.stdtr(df, t)]: the distribution function of Student's t
    with [df] degrees of freedom. *)
Variable stdtr : float -> float -> float.

(** numpy's random generator: its states, the state a seed gives, and
    [choice(len, size=n, replace=False)]. *)
Variable rng : Type.
Variable RandomState : Z -> rng.
Variable rng_choice : rng -> nat -> nat -> list nat.

(** The file at [data/df_selecionado.xlsx] and [pd.read_excel] on it. *)
Variable file : Type.
Variable read_excel : file -> result DataFrame.

(** *** pandas calls built on them *)

(** [pd.to_numeric(s, errors="coerce")], one cell at a time.  Timestamps
    are read as their 64-bit integer, the missing one included. *)
Definition to_numeric_cell (c : cell) : float :=
  match c with
  | CNum x => x
  | CStr s => match parse_float s with Some x => x | None => NaN end
  | CTime t => of_Z t
  | CNaT => of_Z iNaT
  | CNA => NaN
  end.

Definition to_numeric (s : list cell) : list float := map to_numeric_cell s.

(** [pd.to_datetime(col, errors="coerce", ...)]: a date-time column in which
    every cell that does not parse is missing. *)
Definition to_datetime (col : column) : result column :=
  if to_datetime_raises col then Raise (LibraryError "to_datetime")
  else Ok (mkColumn "datetime64[ns]"
             (map (fun c => match parse_datetime c with
                            | Some t => CTime t
                            | None => CNaT
                            end) (cells col))).

(** [df.sample(n=n, random_state=random_state)]; with no [random_state] the
    global generator [g] is used. *)
Definition sample (g : rng) (df : DataFrame) (n : Z) (random_state : option Z)
  : result DataFrame :=
  if (n <? 0)%Z then Raise ValueError
  else if (Z.of_nat (len df) <? n)%Z then Raise ValueError
  else
    let st := match random_state with Some seed => RandomState seed | None => g end in
    take df (rng_choice st (len df) (Z.to_nat n)).

(** *** carregar_excel *)

Definition possivel_data (c : string) : bool := contains "data" (lower c).

Definition unnamed (c : string) : bool := String.prefix "Unnamed" c.

(** One turn of the date loop: [try: df[c] = pd.to_datetime(df[c], ...)]
    [except Exception: pass]. *)
Definition parse_date_column (df : DataFrame) (c : string) : DataFrame :=
  match (col <- getitem df c ;; to_datetime col) with
  | Ok col' => setitem df c col'
  | Raise _ => df
  end.

(** [fs] is what the file system holds at the dataset's path. *)
Definition carregar_excel (fs : option file) : result DataFrame :=
  match fs with
  | None => Raise FileNotFoundError
  | Some f =>
      df <- read_excel f ;;
      let possiveis_datas := filter possivel_data (names df) in
      let df := fold_left parse_date_column possiveis_datas df in
      Ok (select_columns (fun c => negb (unnamed c)) df)
  end.

(** *** tabela_tipos *)

Record tipo_row : Type := mkTipo {
  tipo_coluna : string;
  tipo_dtype : string;
  pct_nulos : float
}.

Definition tabela_tipos (df : DataFrame) : result (list tipo_row) :=
  let n := len df in
  mapM (fun col =>
          s <- getitem df col ;;
          let nulls := length (filter isna (cells s)) in
          let null_pct :=
            match n with
            | O => Fin 0
            | _ => fmul (fdiv (of_nat nulls) (of_nat n)) (Fin 100)
            end in
          Ok (mkTipo col (dtype s) (round2 null_pct)))
       (names df).

(** *** estatisticas_basicas *)

Record resumo_row : Type := mkResumo {
  coluna : string;
  r_count : nat;
  r_mean : float;
  r_median : float;
  r_std : float;
  r_var : float;
  r_min : float;
  r_max : float
}.

Definition resumo_coluna (df : DataFrame) (c : string) : result resumo_row :=
  col <- getitem df c ;;
  let serie := to_numeric (cells col) in
  Ok (mkResumo c
        (Series.count serie)
        (if (0 <? Series.count serie)%nat then Series.mean serie else NaN)
        (if (0 <? Series.count serie)%nat then Series.median serie else NaN)
        (if (1 <? Series.count serie)%nat then Series.std 1 serie else NaN)
        (if (1 <? Series.count serie)%nat then Series.var 1 serie else NaN)
        (if (0 <? Series.count serie)%nat then Series.min serie else NaN)
        (if (0 <? Series.count serie)%nat then Series.max serie else NaN)).

Definition estatisticas_basicas (df : DataFrame) (colunas_numericas : list string)
  : result (list resumo_row) :=
  match colunas_numericas with
  | [] => Ok []
  | _ => mapM (resumo_coluna df) colunas_numericas
  end.

(** *** ic_media *)

Definition ic_media (amostra : list cell) (alpha : R) : float * (float * float) :=
  let amostra := Series.dropna (to_numeric amostra) in
  let n := length amostra in
  let media := if (0 <? n)%nat then Series.mean amostra else NaN in
  let s := if (1 <? n)%nat then Series.std 1 amostra else NaN in
  if (n <=? 1)%nat || isnan s || feq s (Fin 0) then (media, (NaN, NaN))
  else
    let t_crit := t_ppf (1 - alpha / 2) (n - 1) in
    let erro := fdiv (fmul t_crit s) (fsqrt (of_nat n)) in
    (media, (fsub media erro, fadd media erro)).

(** *** amostrar_df *)

Definition amostrar_df (g : rng) (df : DataFrame) (n : Z) (seed : Z)
  : result DataFrame :=
  if (Z.of_nat (len df) <=? n)%Z then Ok df
  else sample g df n (Some seed).

(** *** The Welch panel *)

(** [scipy.stats.ttest_ind(a, b, equal_var=False, nan_policy="omit")]. *)
Definition ttest_ind (a b : list float) : float * float :=
  let a := Series.dropna a in
  let b := Series.dropna b in
  let n1 := length a in
  let n2 := length b in
  match n1, n2 with
  | O, _ | _, O => (NaN, NaN)
  | _, _ =>
      let v1 := Np.var 1 a in
      let v2 := Np.var 1 b in
      let vn1 := fdiv v1 (of_nat n1) in
      let vn2 := fdiv v2 (of_nat n2) in
      let df0 := fdiv (fmul (fadd vn1 vn2) (fadd vn1 vn2))
                      (fadd (fdiv (fmul vn1 vn1) (of_nat (n1 - 1)))
                            (fdiv (fmul vn2 vn2) (of_nat (n2 - 1)))) in
      let df := if isnan df0 then Fin 1 else df0 in
      let denom := fsqrt (fadd vn1 vn2) in
      let d := fsub (Np.mean a) (Np.mean b) in
      let t := fdiv d denom in
      (t, fmul (stdtr df (fneg (fabs t))) (Fin 2))
  end.

Record welch_result : Type := mkWelch {
  media_a : float;
  ic_a : float * float;
  media_b : float;
  ic_b : float * float;
  delta : float;
  t_stat : float;
  p_val : float
}.

Inductive welch_outcome : Type :=
| Insuficiente (n_a n_b : nat)       (* the warning, with both counts *)
| Resultado (r : welch_result).      (* the three metrics and the test line *)

(** [pd.to_numeric(df_viz.loc[df_viz[grupo].astype(str) == cat, metrica],]
    [errors="coerce").dropna()] *)
Definition grupo_valores (df_viz : DataFrame) (metrica grupo cat : string)
  : result (list float) :=
  g <- getitem df_viz grupo ;;
  m <- getitem df_viz metrica ;;
  let mask := map (fun c => String.eqb (astype_str c) cat) (cells g) in
  Ok (Series.dropna (to_numeric (boolean_mask mask (cells m)))).

(** The body of the panel once both groups are chosen; [alpha] is the
    default of [ic_media]. *)
Definition welch_painel (df_viz : DataFrame) (metrica grupo cat1 cat2 : string)
    (min_amostra : nat) : result welch_outcome :=
  df_a <- grupo_valores df_viz metrica grupo cat1 ;;
  df_b <- grupo_valores df_viz metrica grupo cat2 ;;
  if (min_amostra <=? length df_a)%nat && (min_amostra <=? length df_b)%nat then
    let '(media_a, ic_a) := ic_media (map CNum df_a) (5 / 100) in
    let '(media_b, ic_b) := ic_media (map CNum df_b) (5 / 100) in
    let '(t_stat, p_val) := ttest_ind df_a df_b in
    let delta := fsub media_a media_b in
    Ok (Resultado (mkWelch media_a ic_a media_b ic_b delta t_stat p_val))
  else
    Ok (Insuficiente (length df_a) (length df_b)).

(** *** identificar_colunas *)

(** [pd.api.types.is_numeric_dtype] on the dtype of a Series. *)
Variable is_numeric_dtype : string -> bool.

(** [pd.api.types.is_numeric_dtype(df[c])]; when the label occurs more than
    once [df[c]] is a DataFrame, which has no dtype and is not numeric. *)
Definition coluna_numerica (df : DataFrame) (c : string) : bool :=
  match getitem df c with
  | Ok col => is_numeric_dtype (dtype col)
  | Raise _ => false
  end.

Definition identificar_colunas (df : DataFrame) : list string * list string :=
  (filter (coluna_numerica df) (names df),
   filter (fun c => negb (coluna_numerica df c)) (names df)).

(** *** The module-level sample *)

(** [df_viz = amostrar_df(df, TAM_AMOSTRA) if USAR_AMOSTRA else df], with
    the default seed 42. *)
Definition df_viz (g : rng) (df : DataFrame) (USAR_AMOSTRA : bool)
    (TAM_AMOSTRA : Z) : result DataFrame :=
  if USAR_AMOSTRA then amostrar_df g df TAM_AMOSTRA 42 else Ok df.

(** *** The statistics tab *)

(** [df[cols]] with a list of labels: the columns with those labels, in the
    order of the list; a label the table lacks is a KeyError. *)
Definition getitem_cols (df : DataFrame) (cols : list string) : result DataFrame :=
  cs <- mapM (fun c =>
                match filter (fun p => String.eqb (fst p) c) (columns df) with
                | [] => Raise (KeyError c)
                | l => Ok l
                end) cols ;;
  Ok (mkDataFrame (index df) (concat cs)).

Inductive resumo_aba_out : Type :=
| SemNumericas                          (* warning: no numeric column *)
| SelecioneColuna                       (* info: nothing selected *)
| Resumo (rows : list resumo_row).      (* the summary table *)

(** The body of the tab once its toggle is on: [escolha] is what the
    multiselect returns, [max_cols] the slider's value. *)
Definition resumo_aba (df : DataFrame) (colunas_num : list string)
    (max_cols : nat) (escolha : list string) : result resumo_aba_out :=
  match colunas_num with
  | [] => Ok SemNumericas
  | _ =>
      let cols_sel := firstn max_cols escolha in
      match cols_sel with
      | [] => Ok SelecioneColuna
      | _ =>
          sub <- getitem_cols df cols_sel ;;
          rows <- estatisticas_basicas sub cols_sel ;;
          Ok (Resumo rows)
      end
  end.

(** *** The Welch tab *)

(** [Series.unique()]: the distinct values in order of first appearance;
    [seen] holds the values already met. *)
Fixpoint unique_from (seen l : list string) : list string :=
  match l with
  | [] => []
  | x :: l' =>
      if existsb (String.eqb x) seen then unique_from seen l'
      else x :: unique_from (x :: seen) l'
  end.

Definition unique (l : list string) : list string := unique_from [] l.

(** [df_viz[grupo].dropna().astype(str).unique().tolist()] *)
Definition categorias (df_viz : DataFrame) (grupo : string) : result (list string) :=
  g <- getitem df_viz grupo ;;
  Ok (unique (map astype_str (filter (fun c => negb (isna c)) (cells g)))).

(** The truth value of what a selectbox returns: [None] and the empty
    label are false. *)
Definition truthy (s : option string) : bool :=
  match s with
  | Some c => negb (String.eqb c "")
  | None => false
  end.

Inductive welch_aba_out : Type :=
| SelecioneMetrica                      (* info: metric or group not chosen *)
| PoucosGrupos                          (* warning: fewer than two groups *)
| Teste (cat1 cat2 : string) (o : welch_outcome).

(** The body of the tab once its toggle is on: [metrica] and [grupo] are
    what the two selectboxes return, [i1] and [i2] the positions chosen in
    the selectboxes of group A and group B (0 and 1 unless changed), which
    the widget keeps below the number of options. *)
Definition welch_aba (df_viz : DataFrame) (metrica grupo : option string)
    (i1 i2 : nat) (min_amostra : nat) : result welch_aba_out :=
  if truthy metrica && truthy grupo then
    match metrica, grupo with
    | Some m, Some g =>
        cats <- categorias df_viz g ;;
        if (length cats <? 2)%nat then Ok PoucosGrupos
        else
          let cat1 := nth i1 cats ""%string in
          let cat2 := nth i2 cats ""%string in
          o <- welch_painel df_viz m g cat1 cat2 min_amostra ;;
          Ok (Teste cat1 cat2 o)
    | _, _ => Ok SelecioneMetrica
    end
  else Ok SelecioneMetrica.

(** ** Reference definitions on real numbers

    The textbook statistics over a list of reals, used to say what the
    reductions above compute on finite data. *)

Definition Rsum (xs : list R) : R := fold_right Rplus 0%R xs.

Definition Rmean (xs : list R) : R := (Rsum xs / INR (length xs))%R.

(** Sample variance: squared deviations from the mean over [n - 1]. *)
Definition Rvar1 (xs : list R) : R :=
  (Rsum (map (fun x => (x - Rmean xs) * (x - Rmean xs)) xs)
   / INR (length xs - 1))%R.

Definition notnan (x : float) : Prop := isnan x = false.

(** ** What a summary row must hold

    [vals] are the non-missing coerced values of the column. *)

Definition fleP (a b : float) : Prop := fle a b = true.

Definition is_minimum (vals : list float) (m : float) : Prop :=
  In m vals /\ Forall (fun x => fleP m x) vals.

Definition is_maximum (vals : list float) (m : float) : Prop :=
  In m vals /\ Forall (fun x => fleP x m) vals.

(** The middle of a list: its central entry, or the mean of the two
    central entries; NaN for the empty list. *)
Definition middle (l : list float) : float :=
  let n := length l in
  match n with
  | O => NaN
  | _ =>
      if Nat.odd n then nth (n / 2) l NaN
      else fdiv (fadd (nth (n / 2 - 1) l NaN) (nth (n / 2) l NaN)) (Fin 2)
  end.

Definition is_median (vals : list float) (m : float) : Prop :=
  exists l, Permutation l vals /\ Sorted fleP l /\ m = middle l.

Definition resumo_spec (c : string) (vals : list float) (r : resumo_row) : Prop :=
  coluna r = c /\
  r_count r = length vals /\
  r_mean r = Np.mean vals /\
  is_median vals (r_median r) /\
  ((length vals < 2)%nat -> r_std r = NaN /\ r_var r = NaN) /\
  ((2 <= length vals)%nat ->
     r_var r = Np.var 1 vals /\ r_std r = fsqrt (Np.var 1 vals)) /\
  (length vals = 0%nat -> r_min r = NaN /\ r_max r = NaN) /\
  ((0 < length vals)%nat ->
     is_minimum vals (r_min r) /\ is_maximum vals (r_max r)).

(** ** Conditions named in the statements below *)



(** ** What the Welch panel must report (spec 4.5 and 4.6)

    The quantities of the panel written from their formulas, over the
    plain reductions of [Np] and over the reals; [a] and [b] are the two
    groups' non-missing coerced values. *)

(** The t-interval for the mean at level [1 - alpha]: undefined for at
    most one value or a standard deviation that is undefined or zero, else
    mean -/+ critical value * s / sqrt n. *)
Definition t_interval (vals : list float) (alpha : R) : float * float :=
  let n := length vals in
  let m := Np.mean vals in
  let s := fsqrt (Np.var 1 vals) in
  if (n <=? 1)%nat || isnan s || feq s (Fin 0) then (NaN, NaN)
  else
    let margin := fdiv (fmul (t_ppf (1 - alpha / 2) (n - 1)) s)
                       (fsqrt (of_nat n)) in
    (fsub m margin, fadd m margin).

(** s_A^2 / n_A + s_B^2 / n_B *)
Definition welch_se2 (a b : list float) : float :=
  fadd (fdiv (Np.var 1 a) (of_nat (length a)))
       (fdiv (Np.var 1 b) (of_nat (length b))).

(** t = (mean_A - mean_B) / sqrt (s_A^2 / n_A + s_B^2 / n_B) *)
Definition welch_t (a b : list float) : float :=
  fdiv (fsub (Np.mean a) (Np.mean b)) (fsqrt (welch_se2 a b)).

(** The Welch-Satterthwaite degrees of freedom. *)
Definition welch_df (a b : list float) : float :=
  let vn1 := fdiv (Np.var 1 a) (of_nat (length a)) in
  let vn2 := fdiv (Np.var 1 b) (of_nat (length b)) in
  fdiv (fmul (welch_se2 a b) (welch_se2 a b))
       (fadd (fdiv (fmul vn1 vn1) (of_nat (length a - 1)))
             (fdiv (fmul vn2 vn2) (of_nat (length b - 1)))).

(** The two-tailed p-value of [t] under Student's t with [df] degrees of
    freedom: twice the lower tail at [- |t|]. *)
Definition two_tailed (df t : float) : float :=
  fmul (stdtr df (fneg (fabs t))) (Fin 2).

(** The same on real numbers. *)
Definition Rwelch_se2 (xa xb : list R) : R :=
  (Rvar1 xa / INR (length xa) + Rvar1 xb / INR (length xb))%R.

Definition Rwelch_t (xa xb : list R) : R :=
  ((Rmean xa - Rmean xb) / sqrt (Rwelch_se2 xa xb))%R.

Definition Rwelch_df (xa xb : list R) : R :=
  (Rwelch_se2 xa xb * Rwelch_se2 xa xb
   / ((Rvar1 xa / INR (length xa)) * (Rvar1 xa / INR (length xa))
        / INR (length xa - 1)
      + (Rvar1 xb / INR (length xb)) * (Rvar1 xb / INR (length xb))
        / INR (length xb - 1)))%R.

(** What a result of the panel must hold: the two means with their
    t-intervals at 95%, the difference A - B, Welch's statistic for two
    non-empty groups and, when the degrees of freedom are defined, the
    two-tailed p-value. *)
Definition welch_spec (a b : list float) (r : welch_result) : Prop :=
  media_a r = Np.mean a /\ ic_a r = t_interval a (5 / 100) /\
  media_b r = Np.mean b /\ ic_b r = t_interval b (5 / 100) /\
  delta r = fsub (Np.mean a) (Np.mean b) /\
  (a <> [] -> b <> [] ->
   t_stat r = welch_t a b /\
   (notnan (welch_df a b) ->
    p_val r = two_tailed (welch_df a b) (welch_t a b))).

(** The same on two finite groups [xa], [xb] of at least two values whose
    variances are not both zero: every reported number is the textbook
    one. *)
Definition welch_spec_finite (xa xb : list R) (r : welch_result) : Prop :=
  media_a r = Fin (Rmean xa) /\ media_b r = Fin (Rmean xb) /\
  delta r = Fin (Rmean xa - Rmean xb) /\
  t_stat r = Fin (Rwelch_t xa xb) /\
  p_val r = two_tailed (Fin (Rwelch_df xa xb)) (Fin (Rwelch_t xa xb)).

(** [choice(len, size=n, replace=False)] returns [n] distinct positions
    below [len], whatever the state of the generator. *)
Definition choice_without_replacement : Prop :=
  forall (st : rng) (len n : nat), (n <= len)%nat ->
    length (rng_choice st len n) = n /\
    NoDup (rng_choice st len n) /\
    Forall (fun i => (i < len)%nat) (rng_choice st len n).

(** The rows of [df] at the positions [locs], in that order. *)
Definition rows_at (df : DataFrame) (locs : list nat) : DataFrame :=
  mkDataFrame
    (map (fun i => nth i (index df) 0%Z) locs)
    (map (fun p => (fst p, mkColumn (dtype (snd p))
                             (map (fun i => nth i (cells (snd p)) CNA) locs)))
         (columns df)).

(** [pd.read_excel] on a file that exists does not report it missing. *)
Definition read_excel_finds_file : Prop :=
  forall f : file, read_excel f <> Raise FileNotFoundError.

(** What the date loop leaves in place of a selected column: the parsed
    column, or the column as read when the parser raised. *)
Definition date_parsed (col : column) : column :=
  match to_datetime col with
  | Ok col' => col'
  | Raise _ => col
  end.

(** * Properties *)

(** ** Floats *)






Lemma fneg_fsub (a b : float) : fneg (fsub a b) = fsub b a.
Proof. destruct a, b; fcases. Qed.



Lemma fmul_sqr_fneg (a : float) : fmul (fneg a) (fneg a) = fmul a a.
Proof. destruct a; fcases. Qed.


Lemma fdiv_Fin (x y : R) : y <> 0%R -> fdiv (Fin x) (Fin y) = Fin (x / y).
Proof. intros; fcases. Qed.

Lemma fsqrt_Fin (x : R) : (0 <= x)%R -> fsqrt (Fin x) = Fin (sqrt x).
Proof. intros; fcases. Qed.


Lemma fadd_Fin_inv (a b : float) (v : R) :
  fadd a b = Fin v -> exists x y, a = Fin x /\ b = Fin y /\ v = (x + y)%R.
Proof.
  destruct a, b; simpl; try discriminate. intros H; injection H as <-. eauto.
Qed.


(** ** Sums *)

Lemma fadd_0_l (a : float) : fadd (Fin 0) a = a.
Proof. destruct a; fcases. Qed.

Lemma Np_sum_map_Fin (xs : list R) : Np.sum (map Fin xs) = Fin (Rsum xs).
Proof.
  unfold Np.sum. induction xs as [|x xs IH]; simpl; [reflexivity|].
  now rewrite IH.
Qed.

Lemma Np_sum_Fin_inv (l : list float) (v : R) :
  Np.sum l = Fin v -> exists xs, l = map Fin xs /\ v = Rsum xs.
Proof.
  unfold Np.sum. revert v; induction l as [|a l IH]; simpl; intros v H.
  - injection H as <-. now exists [].
  - apply fadd_Fin_inv in H as (x & y & -> & Hy & ->).
    destruct (IH _ Hy) as (xs & -> & ->). now exists (x :: xs).
Qed.

Lemma dropna_notnan (s : list float) : Forall notnan (Series.dropna s).
Proof.
  apply Forall_forall. intros x Hx. apply filter_In in Hx as [_ Hx].
  unfold notnan. now destruct (isnan x).
Qed.

Lemma dropna_id (l : list float) : Forall notnan l -> Series.dropna l = l.
Proof.
  induction 1 as [|x l Hx _ IH]; simpl; [reflexivity|].
  rewrite Hx; simpl. now rewrite IH.
Qed.


Lemma count_notnan (l : list float) : Forall notnan l -> Series.count l = length l.
Proof. intros H. unfold Series.count. now rewrite dropna_id. Qed.

(** The pandas sum is the plain sum of the values that are present. *)
Lemma Series_sum_dropna (s : list float) :
  Series.sum s = Np.sum (Series.dropna s).
Proof.
  unfold Series.sum. induction s as [|x s IH]; simpl; [reflexivity|].
  rewrite IH. destruct x; simpl; try reflexivity. apply fadd_0_l.
Qed.

Lemma map_Fin_notnan (xs : list R) : Forall notnan (map Fin xs).
Proof. induction xs; simpl; constructor; auto. reflexivity. Qed.

Lemma Series_sum_map_Fin (xs : list R) : Series.sum (map Fin xs) = Fin (Rsum xs).
Proof.
  rewrite Series_sum_dropna, dropna_id by apply map_Fin_notnan.
  apply Np_sum_map_Fin.
Qed.

Lemma INR_pos_neq (n : nat) : (0 < n)%nat -> INR n <> 0%R.
Proof. intros H. apply not_0_INR. lia. Qed.

Lemma Series_mean_map_Fin (xs : list R) :
  xs <> [] -> Series.mean (map Fin xs) = Fin (Rmean xs).
Proof.
  intros Hne. unfold Series.mean.
  rewrite count_notnan by apply map_Fin_notnan.
  rewrite length_map. destruct xs as [|x xs]; [congruence|].
  cbn [length]. rewrite Series_sum_map_Fin. unfold of_nat.
  rewrite fdiv_Fin by (apply INR_pos_neq; lia). reflexivity.
Qed.



Lemma Series_var_map_Fin (xs : list R) :
  (2 <= length xs)%nat -> Series.var 1 (map Fin xs) = Fin (Rvar1 xs).
Proof.
  intros Hn. unfold Series.var.
  rewrite count_notnan by apply map_Fin_notnan. rewrite length_map.
  destruct (Nat.leb_spec (length xs) 1) as [|_]; [lia|].
  rewrite Series_sum_map_Fin. unfold of_nat.
  rewrite fdiv_Fin by (apply INR_pos_neq; lia). fold (Rmean xs).
  replace (Series.sqdev (Fin (Rmean xs)) (map Fin xs))
    with (map Fin (map (fun x => (x - Rmean xs) * (x - Rmean xs))%R xs)).
  - rewrite Np_sum_map_Fin, fdiv_Fin by (apply INR_pos_neq; lia). reflexivity.
  - unfold Series.sqdev. rewrite !map_map. apply map_ext. intros x. simpl.
    f_equal. ring.
Qed.

Lemma Rsum_sqr_nonneg (f : R -> R) (xs : list R) :
  (0 <= Rsum (map (fun x => f x * f x) xs))%R.
Proof.
  induction xs as [|x xs IH]; simpl; [lra|].
  pose proof (Rle_0_sqr (f x)) as H. unfold Rsqr in H. lra.
Qed.

Lemma Rvar1_nonneg (xs : list R) : (2 <= length xs)%nat -> (0 <= Rvar1 xs)%R.
Proof.
  intros Hn. unfold Rvar1.
  apply Rmult_le_pos.
  - apply (Rsum_sqr_nonneg (fun x => x - Rmean xs)%R).
  - left. apply Rinv_0_lt_compat. apply lt_0_INR. lia.
Qed.

(** ** The sample variance is finite or undefined, never infinite *)

Lemma Np_sum_In_NaN (l : list float) : In NaN l -> Np.sum l = NaN.
Proof.
  unfold Np.sum. induction l as [|a l IH]; simpl; [contradiction|].
  intros [->|H]; [reflexivity|]. rewrite IH by assumption. now destruct a.
Qed.

Lemma Np_sum_PInf_inv (l : list float) : Np.sum l = PInf -> In PInf l.
Proof.
  unfold Np.sum. induction l as [|a l IH]; simpl; [discriminate|].
  intros H. destruct a; try (now left); right; apply IH;
    destruct (fold_right fadd (Fin 0) l); simpl in H; congruence.
Qed.

Lemma Np_sum_NInf_inv (l : list float) : Np.sum l = NInf -> In NInf l.
Proof.
  unfold Np.sum. induction l as [|a l IH]; simpl; [discriminate|].
  intros H. destruct a; try (now left); right; apply IH;
    destruct (fold_right fadd (Fin 0) l); simpl in H; congruence.
Qed.

Lemma sqdev_In_NaN (avg x : float) (l : list float) :
  In x l -> notnan x -> fsub avg x = NaN -> In NaN (Series.sqdev avg l).
Proof.
  intros Hin Hx Hsub. unfold Series.sqdev. apply in_map_iff.
  exists x. split; [|assumption]. unfold notnan in Hx. now rewrite Hx, Hsub.
Qed.

Lemma Series_var_cases (l : list float) :
  Forall notnan l ->
  Series.var 1 l = NaN \/
  exists xs, l = map Fin xs /\ (2 <= length xs)%nat /\
             Series.var 1 l = Fin (Rvar1 xs).
Proof.
  intros Hl.
  destruct (Np.sum l) eqn:ES.
  4:{ apply Np_sum_Fin_inv in ES as (xs & -> & _).
      destruct (Nat.leb_spec (length xs) 1) as [Hn|Hn].
      - left. unfold Series.var. rewrite count_notnan, length_map by assumption.
        now destruct (Nat.leb_spec (length xs) 1); [|lia].
      - right. exists xs. repeat split; [lia|]. apply Series_var_map_Fin. lia. }
  all: left; unfold Series.var; rewrite count_notnan by assumption;
    destruct (Nat.leb_spec (length l) 1) as [|Hn]; [reflexivity|];
    assert (Hpos : (0 < INR (length l))%R) by (apply lt_0_INR; lia);
    rewrite Series_sum_dropna, dropna_id, ES by assumption;
    rewrite (Np_sum_In_NaN (Series.sqdev _ l)); [reflexivity|].
  - destruct l as [|x0 l0]; [simpl in Hn; lia|].
    apply (sqdev_In_NaN _ x0); [now left | now inversion Hl | reflexivity].
  - apply (sqdev_In_NaN _ PInf);
      [now apply Np_sum_PInf_inv | reflexivity | unfold of_nat; fcases].
  - apply (sqdev_In_NaN _ NInf);
      [now apply Np_sum_NInf_inv | reflexivity | unfold of_nat; fcases].
Qed.

(** ** ic_media *)

Lemma ic_media_unfold (amostra : list cell) (alpha : R) :
  let serie := Series.dropna (to_numeric amostra) in
  let n := length serie in
  let media := if (0 <? n)%nat then Series.mean serie else NaN in
  let s := if (1 <? n)%nat then Series.std 1 serie else NaN in
  ic_media amostra alpha =
  if (n <=? 1)%nat || isnan s || feq s (Fin 0) then (media, (NaN, NaN))
  else
    let erro := fdiv (fmul (t_ppf (1 - alpha / 2) (n - 1)) s)
                     (fsqrt (of_nat n)) in
    (media, (fsub media erro, fadd media erro)).
Proof. reflexivity. Qed.

(** C10: a sample that is empty, or whose values are all missing after
    coercion, gets NaN as point estimate and the undefined interval
    (NaN, NaN); no error is raised. *)
Theorem ic_media_no_values (amostra : list cell) (alpha : R) :
  Series.count (to_numeric amostra) = 0%nat ->
  ic_media amostra alpha = (NaN, (NaN, NaN)).
Proof.
  intros H. rewrite ic_media_unfold. cbv zeta.
  unfold Series.count in H. rewrite H. reflexivity.
Qed.


(** ** Order, minimum, maximum *)

Lemma fle_refl (a : float) : notnan a -> fleP a a.
Proof. unfold fleP, fle. destruct a; fcases. Qed.

Lemma fle_trans (a b c : float) : fleP a b -> fleP b c -> fleP a c.
Proof. unfold fleP, fle. destruct a, b, c; fcases. Qed.

Lemma flt_false_fle (a b : float) :
  notnan a -> notnan b -> flt a b = false -> fleP b a.
Proof. unfold notnan, fleP, fle. destruct a, b; fcases. Qed.

Lemma flt_fle (a b : float) : flt a b = true -> fleP a b.
Proof. unfold fleP, fle. now intros ->. Qed.


Lemma fold_fmin_spec (xs : list float) (x : float) :
  Forall notnan (x :: xs) -> is_minimum (x :: xs) (fold_left fmin xs x).
Proof.
  revert x. induction xs as [|y xs IH]; intros x H.
  - inversion H; subst. split; [now left|]. constructor; auto using fle_refl.
  - inversion H as [|? ? Hx Hyxs]; subst. inversion Hyxs as [|? ? Hy Hxs]; subst.
    simpl. unfold fmin at 2. destruct (flt y x) eqn:E.
    + destruct (IH y) as [Hin Hall]; [now constructor|]. split.
      * right. exact Hin.
      * inversion Hall; subst. constructor; [|now constructor].
        eapply fle_trans; [eassumption|]. now apply flt_fle.
    + destruct (IH x) as [Hin Hall]; [now constructor|]. split.
      * destruct Hin as [<-|Hin]; [now left | now right; right].
      * inversion Hall; subst. constructor; [assumption|].
        constructor; [|assumption].
        eapply fle_trans; [eassumption|]. now apply flt_false_fle.
Qed.

Lemma fold_fmax_spec (xs : list float) (x : float) :
  Forall notnan (x :: xs) -> is_maximum (x :: xs) (fold_left fmax xs x).
Proof.
  revert x. induction xs as [|y xs IH]; intros x H.
  - inversion H; subst. split; [now left|]. constructor; auto using fle_refl.
  - inversion H as [|? ? Hx Hyxs]; subst. inversion Hyxs as [|? ? Hy Hxs]; subst.
    simpl. unfold fmax at 2. destruct (flt x y) eqn:E.
    + destruct (IH y) as [Hin Hall]; [now constructor|]. split.
      * right. exact Hin.
      * inversion Hall; subst. constructor; [|now constructor].
        eapply fle_trans; [|eassumption]. now apply flt_fle.
    + destruct (IH x) as [Hin Hall]; [now constructor|]. split.
      * destruct Hin as [<-|Hin]; [now left | now right; right].
      * inversion Hall; subst. constructor; [assumption|].
        constructor; [|assumption].
        eapply fle_trans; [|eassumption]. now apply flt_false_fle.
Qed.

Lemma Series_min_spec (s : list float) :
  Series.dropna s <> [] -> is_minimum (Series.dropna s) (Series.min s).
Proof.
  intros Hne. unfold Series.min. pose proof (dropna_notnan s) as Hnn.
  destruct (Series.dropna s) as [|x xs]; [congruence|]. now apply fold_fmin_spec.
Qed.

Lemma Series_max_spec (s : list float) :
  Series.dropna s <> [] -> is_maximum (Series.dropna s) (Series.max s).
Proof.
  intros Hne. unfold Series.max. pose proof (dropna_notnan s) as Hnn.
  destruct (Series.dropna s) as [|x xs]; [congruence|]. now apply fold_fmax_spec.
Qed.

(** ** Sorting and the median *)

Lemma insert_perm (x : float) (l : list float) :
  Permutation (Series.insert x l) (x :: l).
Proof.
  induction l as [|y l IH]; simpl; [reflexivity|].
  destruct (fle x y); [reflexivity|].
  rewrite IH. apply perm_swap.
Qed.

Lemma sort_values_perm (l : list float) : Permutation (Series.sort_values l) l.
Proof.
  induction l as [|x l IH]; simpl; [reflexivity|].
  rewrite insert_perm. now constructor.
Qed.

Lemma insert_sorted (x : float) (l : list float) :
  notnan x -> Forall notnan l -> Sorted fleP l -> Sorted fleP (Series.insert x l).
Proof.
  intros Hx Hl Hs. induction l as [|y l IH]; simpl.
  - repeat constructor.
  - inversion Hl as [|? ? Hy Hl']; subst. inversion Hs as [|? ? Hs' Hhd]; subst.
    destruct (fle x y) eqn:E.
    + constructor; [assumption|]. now constructor.
    + assert (Hyx : fleP y x).
      { unfold fle in E. apply orb_false_iff in E as [E _].
        now apply flt_false_fle. }
      constructor; [now apply IH|].
      destruct l as [|z l]; simpl.
      * now constructor.
      * destruct (fle x z); constructor; [assumption|].
        now inversion Hhd.
Qed.

Lemma sort_values_sorted (l : list float) :
  Forall notnan l -> Sorted fleP (Series.sort_values l).
Proof.
  induction 1 as [|x l Hx Hl IH]; simpl; [constructor|].
  apply insert_sorted; auto.
  eapply Permutation_Forall; [|exact Hl]. symmetry. apply sort_values_perm.
Qed.

Lemma Series_median_spec (s : list float) :
  is_median (Series.dropna s) (Series.median s).
Proof.
  exists (Series.sort_values (Series.dropna s)). repeat split.
  - apply sort_values_perm.
  - apply sort_values_sorted, dropna_notnan.
Qed.



(** ** pandas reductions against numpy on the values present *)

Lemma Np_mean_nil : Np.mean [] = NaN.
Proof. unfold Np.mean, Np.sum, of_nat. fcases. Qed.

Lemma Series_mean_dropna (s : list float) :
  Series.mean s = Np.mean (Series.dropna s).
Proof.
  unfold Series.mean, Series.count.
  destruct (Series.dropna s) as [|x l] eqn:E.
  - simpl. symmetry. apply Np_mean_nil.
  - rewrite Series_sum_dropna, E. reflexivity.
Qed.

Lemma sqdev_sum (a : float) (s : list float) :
  Np.sum (Series.sqdev a s)
  = Np.sum (map (fun x => fmul (fsub x a) (fsub x a)) (Series.dropna s)).
Proof.
  unfold Np.sum. induction s as [|x s IH]; simpl; [reflexivity|].
  destruct (isnan x) eqn:E; simpl.
  - rewrite IH. apply fadd_0_l.
  - rewrite IH. f_equal.
    rewrite <- (fneg_fsub x a). apply fmul_sqr_fneg.
Qed.

Lemma Series_var_dropna (s : list float) :
  (2 <= Series.count s)%nat ->
  Series.var 1 s = Np.var 1 (Series.dropna s).
Proof.
  intros Hn. unfold Series.var, Np.var.
  destruct (Nat.leb_spec (Series.count s) 1) as [|_]; [lia|].
  rewrite sqdev_sum. unfold Np.mean.
  rewrite Series_sum_dropna. reflexivity.
Qed.

(** ** estatisticas_basicas *)

Lemma mapM_Forall2 {A B : Type} (f : A -> result B) (l : list A) (bs : list B) :
  mapM f l = Ok bs <-> Forall2 (fun a b => f a = Ok b) l bs.
Proof.
  revert bs. induction l as [|a l IH]; intros bs; simpl.
  - split.
    + intros H; injection H as <-. constructor.
    + intros H; inversion H. reflexivity.
  - split.
    + destruct (f a) as [b|e] eqn:Ea; simpl; [|discriminate].
      destruct (mapM f l) as [bs'|e] eqn:El; simpl; [|discriminate].
      intros H; injection H as <-. constructor; [assumption|]. now apply IH.
    + intros H; inversion H as [|? b ? bs' Hb Hbs]; subst.
      rewrite Hb. simpl. apply IH in Hbs. rewrite Hbs. reflexivity.
Qed.

Lemma resumo_coluna_spec (df : DataFrame) (c : string) (col : column) :
  getitem df c = Ok col ->
  exists r, resumo_coluna df c = Ok r /\
            resumo_spec c (Series.dropna (to_numeric (cells col))) r.
Proof.
  intros Hg. unfold resumo_coluna. rewrite Hg. simpl.
  eexists; split; [reflexivity|].
  set (serie := to_numeric (cells col)).
  unfold resumo_spec; simpl.
  fold (Series.count serie).
  repeat split.
  - destruct (Nat.ltb_spec 0 (Series.count serie)) as [H|H].
    + apply Series_mean_dropna.
    + unfold Series.count in H.
      destruct (Series.dropna serie); [symmetry; apply Np_mean_nil | simpl in H; lia].
  - destruct (Nat.ltb_spec 0 (Series.count serie)) as [H|H].
    + apply Series_median_spec.
    + unfold Series.count in H.
      destruct (Series.dropna serie) eqn:E; [|simpl in H; lia].
      exists []. repeat split; constructor.
  - now destruct (Nat.ltb_spec 1 (Series.count serie)); [lia|].
  - now destruct (Nat.ltb_spec 1 (Series.count serie)); [lia|].
  - destruct (Nat.ltb_spec 1 (Series.count serie)); [|lia].
    now apply Series_var_dropna.
  - destruct (Nat.ltb_spec 1 (Series.count serie)); [|lia].
    unfold Series.std. now rewrite Series_var_dropna.
  - now destruct (Nat.ltb_spec 0 (Series.count serie)); [lia|].
  - now destruct (Nat.ltb_spec 0 (Series.count serie)); [lia|].
  - destruct (Nat.ltb_spec 0 (Series.count serie)); [|lia].
    apply Series_min_spec. unfold Series.count in *.
    destruct (Series.dropna serie); simpl in *; [lia | discriminate].
  - destruct (Nat.ltb_spec 0 (Series.count serie)); [|lia].
    apply Series_min_spec. unfold Series.count in *.
    destruct (Series.dropna serie); simpl in *; [lia | discriminate].
  - destruct (Nat.ltb_spec 0 (Series.count serie)); [|lia].
    apply Series_max_spec. unfold Series.count in *.
    destruct (Series.dropna serie); simpl in *; [lia | discriminate].
  - destruct (Nat.ltb_spec 0 (Series.count serie)); [|lia].
    apply Series_max_spec. unfold Series.count in *.
    destruct (Series.dropna serie); simpl in *; [lia | discriminate].
Qed.

Lemma resumo_coluna_Ok_inv (df : DataFrame) (c : string) (r : resumo_row) :
  resumo_coluna df c = Ok r ->
  exists col, getitem df c = Ok col /\
              resumo_spec c (Series.dropna (to_numeric (cells col))) r.
Proof.
  intros H. destruct (getitem df c) as [col|e] eqn:Hg.
  - exists col. split; [reflexivity|].
    destruct (resumo_coluna_spec df c col Hg) as (r' & Hr' & Hspec).
    congruence.
  - unfold resumo_coluna in H. rewrite Hg in H. discriminate.
Qed.

Lemma estatisticas_basicas_Forall2 (df : DataFrame) (cols : list string)
    (rows : list resumo_row) :
  estatisticas_basicas df cols = Ok rows <->
  Forall2 (fun c r => resumo_coluna df c = Ok r) cols rows.
Proof.
  rewrite <- mapM_Forall2. unfold estatisticas_basicas.
  destruct cols; simpl; reflexivity.
Qed.

(** C2: for requested columns that the table holds, the result has one row
    per requested column, in the requested order, and each row holds the
    count of non-missing coerced values, their mean and median, the sample
    variance and standard deviation with divisor N - 1 (NaN below two
    values), and their minimum and maximum (NaN without values); the empty
    request gives the empty result. *)
Theorem estatisticas_basicas_summary (df : DataFrame) (cols : list string) :
  estatisticas_basicas df [] = Ok [] /\
  (Forall (fun c => exists col, getitem df c = Ok col) cols ->
   exists rows,
     estatisticas_basicas df cols = Ok rows /\
     Forall2 (fun c r =>
                exists col, getitem df c = Ok col /\
                  resumo_spec c (Series.dropna (to_numeric (cells col))) r)
             cols rows).
Proof.
  split; [reflexivity|].
  induction 1 as [|c cols (col & Hc) _ (rows & Hrows & Hall)].
  - exists []. split; [reflexivity | constructor].
  - destruct (resumo_coluna_spec df c col Hc) as (r & Hr & Hspec).
    exists (r :: rows). split.
    + apply estatisticas_basicas_Forall2. constructor; [assumption|].
      now apply estatisticas_basicas_Forall2.
    + constructor; [|assumption]. now exists col.
Qed.




(** ** amostrar_df *)

Lemma take_list_in_range {A : Type} (d : A) (l : list A) (locs : list nat) :
  Forall (fun i => (i < length l)%nat) locs ->
  take_list l locs = Ok (map (fun i => nth i l d) locs).
Proof.
  unfold take_list. induction 1 as [|i locs Hi _ IH]; simpl; [reflexivity|].
  rewrite IH. destruct (nth_error l i) as [a|] eqn:E.
  - simpl. now rewrite (nth_error_nth _ _ d E).
  - apply nth_error_None in E. lia.
Qed.

Lemma take_in_range (df : DataFrame) (locs : list nat) :
  aligned df -> Forall (fun i => (i < len df)%nat) locs ->
  take df locs = Ok (rows_at df locs).
Proof.
  intros Hal Hlocs. unfold take, rows_at.
  rewrite (take_list_in_range 0%Z) by assumption. simpl.
  assert (E : mapM (fun p => cs <- take_list (cells (snd p)) locs ;;
                             Ok (fst p, mkColumn (dtype (snd p)) cs))
                   (columns df)
              = Ok (map (fun p => (fst p, mkColumn (dtype (snd p))
                         (map (fun i => nth i (cells (snd p)) CNA) locs)))
                        (columns df))).
  { unfold aligned in Hal. induction Hal as [|p ps Hp _ IH]; simpl; [reflexivity|].
    rewrite (take_list_in_range CNA) by now rewrite Hp.
    simpl. now rewrite IH. }
  now rewrite E.
Qed.

(** C3: a request for at least as many rows as the table has returns the
    table itself; a smaller request n >= 0 returns the rows at n distinct
    positions of the table; and the result does not depend on the state of
    the global generator, only on (table, n, seed). *)
Theorem amostrar_df_sample :
  choice_without_replacement ->
  forall (g : rng) (df : DataFrame) (n seed : Z), aligned df ->
  ((Z.of_nat (len df) <= n)%Z -> amostrar_df g df n seed = Ok df) /\
  ((0 <= n < Z.of_nat (len df))%Z ->
   exists locs,
     length locs = Z.to_nat n /\ NoDup locs /\
     Forall (fun i => (i < len df)%nat) locs /\
     amostrar_df g df n seed = Ok (rows_at df locs) /\
     len (rows_at df locs) = Z.to_nat n) /\
  (forall g', amostrar_df g' df n seed = amostrar_df g df n seed).
Proof.
  intros Hch g df n seed Hal. unfold amostrar_df. repeat split.
  - intros H. now destruct (Z.leb_spec (Z.of_nat (len df)) n); [|lia].
  - intros [H0 Hn]. destruct (Z.leb_spec (Z.of_nat (len df)) n); [lia|].
    unfold sample.
    destruct (Z.ltb_spec n 0); [lia|].
    destruct (Z.ltb_spec (Z.of_nat (len df)) n); [lia|].
    destruct (Hch (RandomState seed) (len df) (Z.to_nat n)) as (Hlen & Hnd & Hlt);
      [lia|].
    exists (rng_choice (RandomState seed) (len df) (Z.to_nat n)).
    repeat split; auto.
    + now apply take_in_range.
    + unfold len, rows_at. simpl. now rewrite length_map.
Qed.

(** ** The Welch panel *)

Lemma to_numeric_CNum (l : list float) : to_numeric (map CNum l) = l.
Proof. unfold to_numeric. rewrite map_map. simpl. apply map_id. Qed.

Lemma grupo_valores_notnan (df_viz : DataFrame) (metrica grupo cat : string)
    (l : list float) :
  grupo_valores df_viz metrica grupo cat = Ok l -> Forall notnan l.
Proof.
  unfold grupo_valores.
  destruct (getitem df_viz grupo); simpl; [|discriminate].
  destruct (getitem df_viz metrica); simpl; [|discriminate].
  intros H; injection H as <-. apply dropna_notnan.
Qed.

(** The point estimate of [ic_media] on values that are present is their
    plain mean. *)
Lemma ic_media_fst (l : list float) (alpha : R) :
  Forall notnan l -> fst (ic_media (map CNum l) alpha) = Np.mean l.
Proof.
  intros Hl. rewrite ic_media_unfold. cbv zeta.
  rewrite to_numeric_CNum, dropna_id by assumption.
  assert (E : (if (0 <? length l)%nat then Series.mean l else NaN) = Np.mean l).
  { rewrite Series_mean_dropna, dropna_id by assumption.
    destruct l; [symmetry; apply Np_mean_nil | reflexivity]. }
  rewrite E. now destruct (_ || _ || _).
Qed.

Lemma Np_var_cases (a : list float) :
  Forall notnan a ->
  Np.var 1 a = NaN \/ exists v, (0 <= v)%R /\ Np.var 1 a = Fin v.
Proof.
  intros Ha. destruct (Nat.leb_spec (length a) 1) as [Hn|Hn].
  - left. destruct a as [|x [|y a]]; [| |simpl in Hn; lia].
    + unfold Np.var, Np.mean, Np.sum, of_nat. fcases.
    + unfold Np.var, Np.mean, Np.sum, of_nat. destruct x; fcases.
  - assert (Hc : (2 <= Series.count a)%nat) by (rewrite count_notnan; auto).
    pose proof (Series_var_dropna a Hc) as E. rewrite dropna_id in E by assumption.
    rewrite <- E.
    destruct (Series_var_cases a Ha) as [H|(xs & _ & Hlen & H)]; [now left|].
    right. exists (Rvar1 xs). split; [now apply Rvar1_nonneg | assumption].
Qed.



Lemma welch_denominator_cases (a b : list float) :
  Forall notnan a -> Forall notnan b -> a <> [] -> b <> [] ->
  let den := fsqrt (fadd (fdiv (Np.var 1 a) (of_nat (length a)))
                         (fdiv (Np.var 1 b) (of_nat (length b)))) in
  den = NaN \/ exists y, (0 <= y)%R /\ den = Fin y.
Proof.
  intros Ha Hb Hane Hbne den. unfold den, of_nat.
  assert (Hna : (0 < INR (length a))%R).
  { apply lt_0_INR. destruct a; [congruence | simpl; lia]. }
  assert (Hnb : (0 < INR (length b))%R).
  { apply lt_0_INR. destruct b; [congruence | simpl; lia]. }
  destruct (Np_var_cases a Ha) as [->|(va & Hva & ->)];
    [now left|].
  destruct (Np_var_cases b Hb) as [->|(vb & Hvb & ->)].
  { left. rewrite fdiv_Fin by lra. reflexivity. }
  rewrite !fdiv_Fin by lra. simpl fadd.
  assert (0 <= va / INR (length a))%R.
  { apply Rmult_le_pos; [lra|]. left. now apply Rinv_0_lt_compat. }
  assert (0 <= vb / INR (length b))%R.
  { apply Rmult_le_pos; [lra|]. left. now apply Rinv_0_lt_compat. }
  rewrite fsqrt_Fin by lra.
  right. eexists; split; [|reflexivity]. apply sqrt_pos.
Qed.

(** Welch's statistic on two non-empty arrays without missing entries. *)
Lemma ttest_ind_stat (a b : list float) :
  Forall notnan a -> Forall notnan b -> a <> [] -> b <> [] ->
  fst (ttest_ind a b)
  = fdiv (fsub (Np.mean a) (Np.mean b))
         (fsqrt (fadd (fdiv (Np.var 1 a) (of_nat (length a)))
                      (fdiv (Np.var 1 b) (of_nat (length b))))).
Proof.
  intros Ha Hb Hane Hbne. unfold ttest_ind.
  rewrite !dropna_id by assumption.
  destruct a as [|x a]; [congruence|]. destruct b as [|y b]; [congruence|].
  reflexivity.
Qed.

Lemma ttest_ind_empty_l (b : list float) : fst (ttest_ind [] b) = NaN.
Proof. reflexivity. Qed.



Lemma welch_painel_Resultado (df_viz : DataFrame)
    (metrica grupo cat1 cat2 : string) (min_amostra : nat)
    (df_a df_b : list float) :
  grupo_valores df_viz metrica grupo cat1 = Ok df_a ->
  grupo_valores df_viz metrica grupo cat2 = Ok df_b ->
  (min_amostra <= length df_a)%nat -> (min_amostra <= length df_b)%nat ->
  exists r,
    welch_painel df_viz metrica grupo cat1 cat2 min_amostra = Ok (Resultado r) /\
    delta r = fsub (Np.mean df_a) (Np.mean df_b) /\
    t_stat r = fst (ttest_ind df_a df_b) /\
    p_val r = snd (ttest_ind df_a df_b).
Proof.
  intros Ha Hb Hna Hnb.
  pose proof (grupo_valores_notnan _ _ _ _ _ Ha) as Hnna.
  pose proof (grupo_valores_notnan _ _ _ _ _ Hb) as Hnnb.
  unfold welch_painel. rewrite Ha, Hb. simpl bind.
  destruct (Nat.leb_spec min_amostra (length df_a)); [|lia].
  destruct (Nat.leb_spec min_amostra (length df_b)); [|lia].
  simpl andb. cbv iota.
  rewrite <- (ic_media_fst df_a (5 / 100)), <- (ic_media_fst df_b (5 / 100))
    by assumption.
  destruct (ic_media (map CNum df_a) (5 / 100)) as [ma ia].
  destruct (ic_media (map CNum df_b) (5 / 100)) as [mb ib].
  destruct (ttest_ind df_a df_b) as [t p].
  eexists. split; [reflexivity|]. repeat split.
Qed.

(** ** numpy reductions on finite data *)

Lemma Np_mean_map_Fin (xs : list R) :
  xs <> [] -> Np.mean (map Fin xs) = Fin (Rmean xs).
Proof.
  intros Hne. rewrite <- (dropna_id (map Fin xs)) by apply map_Fin_notnan.
  rewrite <- Series_mean_dropna. now apply Series_mean_map_Fin.
Qed.

Lemma Np_var_map_Fin (xs : list R) :
  (2 <= length xs)%nat -> Np.var 1 (map Fin xs) = Fin (Rvar1 xs).
Proof.
  intros Hn. rewrite <- (dropna_id (map Fin xs)) by apply map_Fin_notnan.
  rewrite <- Series_var_dropna
    by (rewrite count_notnan, length_map; auto using map_Fin_notnan).
  now apply Series_var_map_Fin.
Qed.

(** ** What the panel reports *)

(** On values that are present, [ic_media] returns their plain mean and
    the t-interval around it. *)
Lemma ic_media_t_interval (l : list float) (alpha : R) :
  Forall notnan l ->
  ic_media (map CNum l) alpha = (Np.mean l, t_interval l alpha).
Proof.
  intros Hl. rewrite ic_media_unfold. cbv zeta. unfold t_interval.
  rewrite to_numeric_CNum, dropna_id by assumption.
  destruct (Nat.leb_spec (length l) 1) as [Hn|Hn].
  - cbn [orb]. f_equal.
    destruct l as [|x l]; [symmetry; apply Np_mean_nil|].
    cbn [length Nat.ltb Nat.leb].
    rewrite Series_mean_dropna, dropna_id by assumption. reflexivity.
  - destruct (Nat.ltb_spec 0 (length l)) as [_|]; [|lia].
    destruct (Nat.ltb_spec 1 (length l)) as [_|]; [|lia].
    assert (Hc : (2 <= Series.count l)%nat) by (rewrite count_notnan; auto).
    unfold Series.std.
    rewrite (Series_var_dropna l Hc), Series_mean_dropna, dropna_id
      by assumption.
    now destruct (_ || _ || _).
Qed.

(** [ttest_ind] on two non-empty arrays without missing entries: Welch's
    statistic, and twice the lower tail at the Welch-Satterthwaite degrees
    of freedom (1 where they are undefined). *)
Lemma ttest_ind_welch (a b : list float) :
  Forall notnan a -> Forall notnan b -> a <> [] -> b <> [] ->
  ttest_ind a b
  = (welch_t a b,
     two_tailed (if isnan (welch_df a b) then Fin 1 else welch_df a b)
                (welch_t a b)).
Proof.
  intros Ha Hb Hane Hbne. unfold ttest_ind.
  rewrite !dropna_id by assumption.
  destruct a as [|x a]; [congruence|]. destruct b as [|y b]; [congruence|].
  reflexivity.
Qed.

Lemma Rwelch_se2_pos (xa xb : list R) :
  (2 <= length xa)%nat -> (2 <= length xb)%nat ->
  Rvar1 xa <> 0%R \/ Rvar1 xb <> 0%R ->
  (0 < Rwelch_se2 xa xb)%R.
Proof.
  intros Hla Hlb Hv. unfold Rwelch_se2.
  assert (Hia : (0 < / INR (length xa))%R)
    by (apply Rinv_0_lt_compat, lt_0_INR; lia).
  assert (Hib : (0 < / INR (length xb))%R)
    by (apply Rinv_0_lt_compat, lt_0_INR; lia).
  pose proof (Rvar1_nonneg xa Hla) as Hva.
  pose proof (Rvar1_nonneg xb Hlb) as Hvb.
  unfold Rdiv. destruct Hv; nra.
Qed.

Lemma welch_se2_finite (xa xb : list R) :
  (2 <= length xa)%nat -> (2 <= length xb)%nat ->
  welch_se2 (map Fin xa) (map Fin xb) = Fin (Rwelch_se2 xa xb).
Proof.
  intros Hla Hlb. unfold welch_se2, Rwelch_se2, of_nat.
  rewrite !Np_var_map_Fin, !length_map by assumption.
  rewrite !fdiv_Fin by (apply INR_pos_neq; lia). reflexivity.
Qed.

Lemma welch_t_finite (xa xb : list R) :
  (2 <= length xa)%nat -> (2 <= length xb)%nat ->
  Rvar1 xa <> 0%R \/ Rvar1 xb <> 0%R ->
  welch_t (map Fin xa) (map Fin xb) = Fin (Rwelch_t xa xb).
Proof.
  intros Hla Hlb Hv. unfold welch_t, Rwelch_t.
  pose proof (Rwelch_se2_pos xa xb Hla Hlb Hv) as Hpos.
  rewrite welch_se2_finite, !Np_mean_map_Fin
    by (try assumption; intros ->; simpl in *; lia).
  rewrite fsqrt_Fin by lra.
  change (fsub (Fin (Rmean xa)) (Fin (Rmean xb)))
    with (Fin (Rmean xa + - Rmean xb)).
  rewrite fdiv_Fin by (apply Rgt_not_eq, sqrt_lt_R0; assumption).
  reflexivity.
Qed.

Lemma welch_df_finite (xa xb : list R) :
  (2 <= length xa)%nat -> (2 <= length xb)%nat ->
  Rvar1 xa <> 0%R \/ Rvar1 xb <> 0%R ->
  welch_df (map Fin xa) (map Fin xb) = Fin (Rwelch_df xa xb).
Proof.
  intros Hla Hlb Hv. unfold welch_df, Rwelch_df. cbv zeta.
  rewrite welch_se2_finite by assumption.
  rewrite !Np_var_map_Fin, !length_map by assumption. unfold of_nat.
  assert (Hna : (0 < INR (length xa))%R) by (apply lt_0_INR; lia).
  assert (Hnb : (0 < INR (length xb))%R) by (apply lt_0_INR; lia).
  assert (Hka : (0 < INR (length xa - 1))%R) by (apply lt_0_INR; lia).
  assert (Hkb : (0 < INR (length xb - 1))%R) by (apply lt_0_INR; lia).
  pose proof (Rvar1_nonneg xa Hla) as Hva.
  pose proof (Rvar1_nonneg xb Hlb) as Hvb.
  rewrite !(fdiv_Fin (Rvar1 _)) by lra. cbn [fmul].
  rewrite !(fdiv_Fin _ (INR (_ - 1))) by lra. cbn [fadd].
  set (qa := (Rvar1 xa / INR (length xa))%R).
  set (qb := (Rvar1 xb / INR (length xb))%R).
  assert (Hqa : (0 <= qa)%R).
  { apply Rmult_le_pos; [lra|]. left. now apply Rinv_0_lt_compat. }
  assert (Hqb : (0 <= qb)%R).
  { apply Rmult_le_pos; [lra|]. left. now apply Rinv_0_lt_compat. }
  assert (Hq : (0 < qa \/ 0 < qb)%R).
  { destruct Hv as [Hv|Hv]; [left|right]; apply Rmult_lt_0_compat;
      try (now apply Rinv_0_lt_compat); lra. }
  assert (Hda : (0 <= qa * qa / INR (length xa - 1))%R).
  { apply Rmult_le_pos; [nra|]. left. now apply Rinv_0_lt_compat. }
  assert (Hdb : (0 <= qb * qb / INR (length xb - 1))%R).
  { apply Rmult_le_pos; [nra|]. left. now apply Rinv_0_lt_compat. }
  assert (Hd : (0 < qa * qa / INR (length xa - 1)
                    + qb * qb / INR (length xb - 1))%R).
  { destruct Hq as [Hq|Hq].
    - assert (0 < qa * qa / INR (length xa - 1))%R; [|lra].
      apply Rmult_lt_0_compat; [nra | now apply Rinv_0_lt_compat].
    - assert (0 < qb * qb / INR (length xb - 1))%R; [|lra].
      apply Rmult_lt_0_compat; [nra | now apply Rinv_0_lt_compat]. }
  rewrite fdiv_Fin by lra. reflexivity.
Qed.

(** C4: with both groups' non-missing coerced values in hand, the panel
    reports "insufficient data", with the two observed counts, exactly when
    one count is below the threshold, and then no result with a t-statistic
    or p-value exists.  Otherwise it returns a result that holds the two
    group means, the t-interval at 95% around each, the difference A - B,
    Welch's statistic (mean_A - mean_B) / sqrt (s_A^2/n_A + s_B^2/n_B) and
    the two-tailed p-value at the Welch-Satterthwaite degrees of freedom;
    on finite groups of at least two values whose variances are not both
    zero these are the textbook numbers over the reals. *)
Theorem welch_painel_threshold (df_viz : DataFrame)
    (metrica grupo cat1 cat2 : string) (min_amostra : nat)
    (df_a df_b : list float) :
  grupo_valores df_viz metrica grupo cat1 = Ok df_a ->
  grupo_valores df_viz metrica grupo cat2 = Ok df_b ->
  let out := welch_painel df_viz metrica grupo cat1 cat2 min_amostra in
  let short := (length df_a < min_amostra)%nat \/ (length df_b < min_amostra)%nat in
  (out = Ok (Insuficiente (length df_a) (length df_b)) <-> short) /\
  (short -> forall r, out <> Ok (Resultado r)) /\
  (~ short ->
   exists r, out = Ok (Resultado r) /\
     welch_spec df_a df_b r /\
     (forall xa xb : list R,
        df_a = map Fin xa -> df_b = map Fin xb ->
        (2 <= length xa)%nat -> (2 <= length xb)%nat ->
        Rvar1 xa <> 0%R \/ Rvar1 xb <> 0%R ->
        welch_spec_finite xa xb r)).
Proof.
  intros Ha Hb out short.
  pose proof (grupo_valores_notnan _ _ _ _ _ Ha) as Hnna.
  pose proof (grupo_valores_notnan _ _ _ _ _ Hb) as Hnnb.
  unfold out, short, welch_painel.
  rewrite Ha, Hb. simpl bind.
  rewrite (ic_media_t_interval df_a (5 / 100) Hnna),
          (ic_media_t_interval df_b (5 / 100) Hnnb).
  destruct (ttest_ind df_a df_b) as [t p] eqn:Et.
  destruct (Nat.leb_spec min_amostra (length df_a));
    destruct (Nat.leb_spec min_amostra (length df_b)); simpl andb; cbv iota.
  - split; [|split].
    + split; [discriminate | lia].
    + lia.
    + intros _. eexists. split; [reflexivity|]. split.
      * unfold welch_spec. cbn [media_a ic_a media_b ic_b delta t_stat p_val].
        do 5 (split; [reflexivity|]).
        intros Hane Hbne.
        rewrite (ttest_ind_welch df_a df_b Hnna Hnnb Hane Hbne) in Et.
        injection Et as <- <-. split; [reflexivity|].
        intros Hdf. unfold notnan in Hdf. now rewrite Hdf.
      * intros xa xb Ea Eb Hla Hlb Hv. subst df_a df_b.
        assert (Hane : map Fin xa <> [])
          by (destruct xa; [simpl in Hla; lia | discriminate]).
        assert (Hbne : map Fin xb <> [])
          by (destruct xb; [simpl in Hlb; lia | discriminate]).
        rewrite (ttest_ind_welch _ _ Hnna Hnnb Hane Hbne) in Et.
        rewrite welch_t_finite, welch_df_finite in Et by assumption.
        cbn [isnan] in Et. injection Et as <- <-.
        unfold welch_spec_finite.
        cbn [media_a ic_a media_b ic_b delta t_stat p_val].
        rewrite !Np_mean_map_Fin
          by (intros ->; simpl in *; lia).
        repeat split.
  - split; [|split]; [split; auto | discriminate | lia].
  - split; [|split]; [split; auto | discriminate | lia].
  - split; [|split]; [split; auto | discriminate | lia].
Qed.



(** ** Column lookup *)

Lemma filter_none {A : Type} (p : A -> bool) (l : list A) :
  (forall a, In a l -> p a = false) -> filter p l = [].
Proof.
  induction l as [|a l IH]; simpl; intros H; [reflexivity|].
  rewrite (H a) by now left. apply IH. intros; apply H. now right.
Qed.

Lemma NoDup_fst_filter (l : list (string * column)) (c : string) (col : column) :
  NoDup (map fst l) -> In (c, col) l ->
  filter (fun p => String.eqb (fst p) c) l = [(c, col)].
Proof.
  induction l as [|p l IH]; simpl; intros Hnd Hin; [contradiction|].
  inversion Hnd as [|? ? Hnotin Hnd']; subst.
  destruct Hin as [->|Hin].
  - simpl. rewrite String.eqb_refl. f_equal. apply filter_none.
    intros q Hq. apply String.eqb_neq. intros E. apply Hnotin.
    simpl. rewrite <- E. now apply in_map.
  - destruct (String.eqb_spec (fst p) c) as [E|E].
    + exfalso. apply Hnotin. rewrite E.
      change c with (fst (c, col)). now apply in_map.
    + now apply IH.
Qed.

Lemma getitem_In (df : DataFrame) (c : string) (col : column) :
  NoDup (names df) -> In (c, col) (columns df) -> getitem df c = Ok col.
Proof.
  intros Hnd Hin. unfold getitem.
  now rewrite (NoDup_fst_filter _ c col Hnd Hin).
Qed.

Lemma getitem_absent (df : DataFrame) (c : string) :
  ~ In c (names df) -> getitem df c = Raise (KeyError c).
Proof.
  intros H. unfold getitem. rewrite filter_none; [reflexivity|].
  intros p Hp. apply String.eqb_neq. intros E. apply H.
  rewrite <- E. now apply in_map.
Qed.

Lemma NoDup_fst_functional (l : list (string * column)) (c : string)
    (col1 col2 : column) :
  NoDup (map fst l) -> In (c, col1) l -> In (c, col2) l -> col1 = col2.
Proof.
  intros Hnd H1 H2.
  pose proof (NoDup_fst_filter l c col1 Hnd H1) as E1.
  pose proof (NoDup_fst_filter l c col2 Hnd H2) as E2.
  congruence.
Qed.

Lemma Forall2_map_same {A B C : Type} (R : B -> C -> Prop)
    (h : A -> B) (g : A -> C) (l : list A) :
  (forall a, In a l -> R (h a) (g a)) -> Forall2 R (map h l) (map g l).
Proof.
  induction l as [|a l IH]; simpl; intros H; constructor.
  - apply H. now left.
  - apply IH. intros; apply H. now right.
Qed.

(** ** tabela_tipos *)

Lemma round_half_even_0 : round_half_even 0 = 0%Z.
Proof.
  unfold round_half_even.
  assert (E : up 0 = 1%Z) by (symmetry; apply tech_up; simpl; lra).
  rewrite E. simpl. unfold Rltb.
  destruct (Rlt_dec (0 - 0) (1 / 2)); [reflexivity | exfalso; lra].
Qed.

Lemma round2_0 : round2 (Fin 0) = Fin 0.
Proof.
  unfold round2. replace (0 * 100)%R with 0%R by ring.
  rewrite round_half_even_0. f_equal. simpl. lra.
Qed.

(** C9: on a table with no rows, the type report still has one row per
    column, each with the column's name and dtype and 0.0 as percentage of
    missing values; the division by the row count is not evaluated. *)
Theorem tabela_tipos_no_rows (df : DataFrame) :
  NoDup (names df) -> len df = 0%nat ->
  tabela_tipos df
  = Ok (map (fun p => mkTipo (fst p) (dtype (snd p)) (Fin 0)) (columns df)).
Proof.
  intros Hnd Hlen. unfold tabela_tipos. rewrite Hlen.
  apply mapM_Forall2. unfold names. apply Forall2_map_same.
  intros [c col] Hin. cbn [fst snd].
  rewrite (getitem_In df c col Hnd Hin). unfold bind. now rewrite round2_0.
Qed.

(** ** carregar_excel *)

Lemma parse_date_column_columns (df : DataFrame) (c : string) :
  NoDup (names df) ->
  columns (parse_date_column df c)
  = map (fun p => if String.eqb (fst p) c then (fst p, date_parsed (snd p)) else p)
        (columns df).
Proof.
  intros Hnd. unfold parse_date_column.
  destruct (in_dec string_dec c (names df)) as [Hin|Hout].
  - apply in_map_iff in Hin as ([c' col] & E & Hin). simpl in E. subst c'.
    rewrite (getitem_In df c col Hnd Hin). simpl bind.
    assert (Hcol : forall p, In p (columns df) -> fst p = c -> snd p = col).
    { intros [c' col'] Hp E. simpl in *. subst c'.
      eapply NoDup_fst_functional; eauto. }
    destruct (to_datetime col) as [col'|e] eqn:Et.
    + simpl. apply map_ext_in. intros p Hp.
      destruct (String.eqb_spec (fst p) c) as [E|E]; [|reflexivity].
      unfold date_parsed. now rewrite (Hcol p Hp E), Et.
    + transitivity (map (fun p : string * column => p) (columns df));
        [symmetry; apply map_id|].
      apply map_ext_in. intros p Hp.
      destruct (String.eqb_spec (fst p) c) as [E|E]; [|reflexivity].
      unfold date_parsed. rewrite (Hcol p Hp E), Et.
      destruct p as [c' col'']. simpl in *. f_equal. now apply Hcol in Hp.
  - rewrite (getitem_absent df c Hout). simpl bind.
    transitivity (map (fun p : string * column => p) (columns df));
      [symmetry; apply map_id|].
    apply map_ext_in. intros p Hp.
    destruct (String.eqb_spec (fst p) c) as [E|E]; [|reflexivity].
    exfalso. apply Hout. rewrite <- E. now apply in_map.
Qed.

Lemma fold_parse_date_columns (cs : list string) (df : DataFrame) :
  NoDup (names df) -> NoDup cs ->
  columns (fold_left parse_date_column cs df)
  = map (fun p => if existsb (String.eqb (fst p)) cs
                  then (fst p, date_parsed (snd p)) else p)
        (columns df).
Proof.
  revert df. induction cs as [|c cs IH]; intros df Hnd Hcs; simpl.
  - symmetry. apply map_id.
  - inversion Hcs as [|? ? Hc Hcs']; subst.
    pose proof (parse_date_column_columns df c Hnd) as E1.
    assert (Hnames : names (parse_date_column df c) = names df).
    { unfold names. rewrite E1, map_map. apply map_ext. intros p.
      now destruct (String.eqb (fst p) c). }
    rewrite IH by (rewrite ?Hnames; assumption).
    rewrite E1, map_map. apply map_ext. intros p.
    destruct (String.eqb_spec (fst p) c) as [E|E]; simpl.
    + rewrite E.
      assert (Hex : existsb (String.eqb c) cs = false).
      { apply not_true_is_false. intros H.
        apply existsb_exists in H as (x & Hx & Ex).
        apply String.eqb_eq in Ex. now subst x. }
      now rewrite Hex.
    + reflexivity.
Qed.

Lemma existsb_filter_names (f : string -> bool) (l : list string) (c : string) :
  In c l -> existsb (String.eqb c) (filter f l) = f c.
Proof.
  intros Hin. destruct (f c) eqn:E.
  - apply existsb_exists. exists c. split; [|apply String.eqb_refl].
    apply filter_In. now split.
  - apply not_true_is_false. intros H.
    apply existsb_exists in H as (x & Hx & Ex).
    apply String.eqb_eq in Ex. subst x.
    apply filter_In in Hx as [_ Hx]. congruence.
Qed.

Lemma filter_map_fst {A : Type} (keep : string -> bool)
    (F : string * A -> string * A) (l : list (string * A)) :
  (forall p, fst (F p) = fst p) ->
  filter (fun p => keep (fst p)) (map F l)
  = map F (filter (fun p => keep (fst p)) l).
Proof.
  intros HF. induction l as [|p l IH]; simpl; [reflexivity|].
  rewrite HF. destruct (keep (fst p)); simpl; now rewrite IH.
Qed.

Lemma fold_parse_date_index (cs : list string) (df : DataFrame) :
  index (fold_left parse_date_column cs df) = index df.
Proof.
  revert df. induction cs as [|c cs IH]; intros df; simpl; [reflexivity|].
  rewrite IH. unfold parse_date_column.
  now destruct (col <- getitem df c ;; to_datetime col).
Qed.

(** What the loader returns for a file that reads as [raw]. *)
Lemma carregar_excel_columns (f : file) (raw : DataFrame) :
  read_excel f = Ok raw -> NoDup (names raw) ->
  exists df,
    carregar_excel (Some f) = Ok df /\
    index df = index raw /\
    columns df
    = map (fun p => if possivel_data (fst p)
                    then (fst p, date_parsed (snd p)) else p)
          (filter (fun p => negb (unnamed (fst p))) (columns raw)).
Proof.
  intros Hread Hnd. unfold carregar_excel. rewrite Hread. simpl bind.
  eexists. split; [reflexivity|]. split.
  - unfold select_columns. simpl. apply fold_parse_date_index.
  - unfold select_columns. simpl.
    rewrite fold_parse_date_columns by (auto using NoDup_filter).
    rewrite (filter_map_fst (fun c => negb (unnamed c)))
      by (intros p; now destruct (existsb _ _)).
    apply map_ext_in. intros p Hp. apply filter_In in Hp as [Hp _].
    rewrite existsb_filter_names; [reflexivity|].
    unfold names. now apply in_map.
Qed.

Lemma names_select_columns (keep : string -> bool) (df : DataFrame) :
  names (select_columns keep df) = filter keep (names df).
Proof.
  unfold names, select_columns. simpl.
  induction (columns df) as [|p l IH]; simpl; [reflexivity|].
  destruct (keep (fst p)); simpl; now rewrite IH.
Qed.

(** C7: provided [pd.read_excel] does not itself report an existing file
    as missing, the loader fails with FileNotFoundError exactly when the
    dataset file is absent; and a table it returns has no column whose name
    starts with "Unnamed". *)
Theorem carregar_excel_errors :
  read_excel_finds_file ->
  forall fs : option file,
    (carregar_excel fs = Raise FileNotFoundError <-> fs = None) /\
    (forall df, carregar_excel fs = Ok df ->
       forall c, In c (names df) ->
         unnamed c = false /\ forall rest, c <> ("Unnamed" ++ rest)%string).
Proof.
  intros Hfound fs. split.
  - destruct fs as [f|]; simpl; [|split; reflexivity].
    split; [|discriminate].
    destruct (read_excel f) as [raw|e] eqn:E; simpl; [discriminate|].
    intros H. injection H as ->. now apply Hfound in E.
  - intros df H c Hc.
    assert (Hu : unnamed c = false).
    { destruct fs as [f|]; simpl in H; [|discriminate].
      destruct (read_excel f) as [raw|e]; simpl in H; [|discriminate].
      injection H as <-. rewrite names_select_columns in Hc.
      apply filter_In in Hc as [_ Hc]. now destruct (unnamed c). }
    split; [assumption|]. intros rest ->.
    destruct rest; vm_compute in Hu; discriminate.
Qed.

(** C6 (as the code has it): the date loop selects the columns whose
    lower-cased name contains "data"; "OrderDate" is not one of them
    ("orderdate" contains "date", not "data"), so such a column is returned
    exactly as read, while a column such as "Data_Pedido" is replaced by its
    date-time parse, in which every cell that does not parse is missing. *)
Theorem carregar_excel_dates (f : file) (raw : DataFrame) :
  read_excel f = Ok raw -> NoDup (names raw) ->
  possivel_data "OrderDate" = false /\
  possivel_data "Data_Pedido" = true /\
  exists df,
    carregar_excel (Some f) = Ok df /\
    columns df
    = map (fun p => if possivel_data (fst p)
                    then (fst p, date_parsed (snd p)) else p)
          (filter (fun p => negb (unnamed (fst p))) (columns raw)) /\
    (forall col, In ("OrderDate"%string, col) (columns raw) ->
       getitem df "OrderDate" = Ok col) /\
    (forall c col, In (c, col) (columns raw) ->
       unnamed c = false -> possivel_data c = true ->
       to_datetime_raises col = false ->
       getitem df c
       = Ok (mkColumn "datetime64[ns]"
               (map (fun x => match parse_datetime x with
                              | Some t => CTime t
                              | None => CNaT
                              end) (cells col)))).
Proof.
  intros Hread Hnd. split; [reflexivity|]. split; [reflexivity|].
  destruct (carregar_excel_columns f raw Hread Hnd) as (df & Hdf & _ & Hcols).
  exists df. split; [assumption|]. split; [assumption|].
  assert (Hnd' : NoDup (names df)).
  { unfold names. rewrite Hcols, map_map.
    erewrite map_ext; [|intros p; now destruct (possivel_data (fst p))].
    clear -Hnd. unfold names in Hnd.
    induction (columns raw) as [|p l IH]; simpl; [constructor|].
    inversion Hnd as [|? ? Hp Hl]; subst.
    destruct (negb (unnamed (fst p))); simpl; auto.
    constructor; auto. intros Hin. apply Hp.
    apply in_map_iff in Hin as (q & E & Hq). apply filter_In in Hq as [Hq _].
    rewrite <- E. now apply in_map. }
  split.
  - intros col Hin. apply getitem_In; [assumption|]. rewrite Hcols.
    apply in_map_iff. exists ("OrderDate"%string, col). split; [reflexivity|].
    apply filter_In. split; [assumption | reflexivity].
  - intros c col Hin Hun Hpd Hraise. apply getitem_In; [assumption|].
    rewrite Hcols. apply in_map_iff. exists (c, col). split.
    + simpl. rewrite Hpd. unfold date_parsed, to_datetime. now rewrite Hraise.
    + apply filter_In. split; [assumption|]. simpl. now rewrite Hun.
Qed.

(** * Further properties of the analysis code *)

(** ** identificar_colunas *)

Lemma filter_split_perm {A : Type} (p : A -> bool) (l : list A) :
  Permutation (filter p l ++ filter (fun a => negb (p a)) l) l.
Proof.
  induction l as [|a l IH]; simpl; [constructor|].
  destruct (p a); simpl.
  - now constructor.
  - etransitivity; [symmetry; apply Permutation_middle|]. now constructor.
Qed.

(** X1: the two lists returned by [identificar_colunas] split the column
    labels: together they are a rearrangement of the labels, a label of the
    table is in the first list exactly when it is not in the second, and in
    a table with distinct labels the first list holds exactly the labels of
    the columns whose dtype is numeric. *)
Theorem identificar_colunas_partition (df : DataFrame) :
  Permutation (fst (identificar_colunas df) ++ snd (identificar_colunas df))
              (names df) /\
  (forall c, In c (names df) ->
     (In c (fst (identificar_colunas df)) <->
      ~ In c (snd (identificar_colunas df)))) /\
  (NoDup (names df) ->
   forall c col, In (c, col) (columns df) ->
     (In c (fst (identificar_colunas df)) <->
      is_numeric_dtype (dtype col) = true)).
Proof.
  unfold identificar_colunas. simpl. split; [apply filter_split_perm|]. split.
  - intros c Hc. rewrite !filter_In. split.
    + intros [_ H] [_ H']. rewrite H in H'. discriminate.
    + intros H. split; [assumption|].
      destruct (coluna_numerica df c) eqn:E; [reflexivity|].
      exfalso. apply H. now split.
  - intros Hnd c col Hin. rewrite filter_In. unfold coluna_numerica.
    rewrite (getitem_In df c col Hnd Hin). split.
    + now intros [_ H].
    + intros H. split; [|assumption].
      unfold names. change c with (fst (c, col)). now apply in_map.
Qed.

(** ** estatisticas_basicas: a label the table lacks *)

Lemma mapM_app_Raise {A B : Type} (f : A -> result B) (pre post : list A)
    (a : A) (e : exn) :
  Forall (fun x => exists b, f x = Ok b) pre -> f a = Raise e ->
  mapM f (pre ++ a :: post) = Raise e.
Proof.
  intros Hpre Ha. induction Hpre as [|x pre (b & Hb) _ IH]; simpl.
  - now rewrite Ha.
  - now rewrite Hb, IH.
Qed.

(** X4: when every label before [c] in the request selects a column and
    the table has no column labelled [c], the summary is not produced: the
    call raises KeyError for [c], whatever follows [c] in the request. *)
Theorem estatisticas_basicas_missing_column (df : DataFrame)
    (pre post : list string) (c : string) :
  Forall (fun c' => exists col, getitem df c' = Ok col) pre ->
  ~ In c (names df) ->
  estatisticas_basicas df (pre ++ c :: post) = Raise (KeyError c).
Proof.
  intros Hpre Hc.
  assert (E : mapM (resumo_coluna df) (pre ++ c :: post) = Raise (KeyError c)).
  { apply mapM_app_Raise.
    - eapply Forall_impl; [|exact Hpre]. intros c' (col & Hcol).
      destruct (resumo_coluna_spec df c' col Hcol) as (r & Hr & _). now exists r.
    - unfold resumo_coluna. now rewrite (getitem_absent df c Hc). }
  unfold estatisticas_basicas. destruct (pre ++ c :: post) eqn:El; [|exact E].
  destruct pre; discriminate.
Qed.

(** ** estatisticas_basicas: variance and deviation *)

(** X5: in every row of the summary the deviation is the square root of the
    variance, the variance is undefined or a non-negative number, so is the
    deviation, both are undefined below two values, and the count does not
    exceed the number of cells of the column. *)
Theorem estatisticas_basicas_spread (df : DataFrame) (cols : list string)
    (rows : list resumo_row) :
  estatisticas_basicas df cols = Ok rows ->
  Forall2 (fun c r =>
             exists col, getitem df c = Ok col /\
               (r_count r <= length (cells col))%nat /\
               r_std r = fsqrt (r_var r) /\
               (r_var r = NaN \/ exists v, (0 <= v)%R /\ r_var r = Fin v) /\
               (r_std r = NaN \/ exists s, (0 <= s)%R /\ r_std r = Fin s) /\
               ((r_count r < 2)%nat -> r_var r = NaN /\ r_std r = NaN))
          cols rows.
Proof.
  intros H. apply estatisticas_basicas_Forall2 in H.
  induction H as [|c r cols rows Hr _ IH]; constructor; [|assumption].
  unfold resumo_coluna in Hr.
  destruct (getitem df c) as [col|e] eqn:Hg; simpl in Hr; [|discriminate].
  injection Hr as <-. exists col. split; [reflexivity|]. simpl.
  set (serie := to_numeric (cells col)).
  assert (Hvar : (if (1 <? Series.count serie)%nat then Series.var 1 serie else NaN)
                 = NaN \/
                 exists v, (0 <= v)%R /\
                   (if (1 <? Series.count serie)%nat then Series.var 1 serie else NaN)
                   = Fin v).
  { destruct (Nat.ltb_spec 1 (Series.count serie)) as [Hn|Hn]; [|now left].
    rewrite Series_var_dropna by lia.
    apply Np_var_cases, dropna_notnan. }
  split; [|split; [|split; [exact Hvar|split]]].
  - unfold Series.count, Series.dropna, serie, to_numeric.
    rewrite <- (length_map to_numeric_cell (cells col)). apply filter_length_le.
  - unfold Series.std. now destruct (1 <? Series.count serie)%nat.
  - unfold Series.std.
    destruct (Nat.ltb_spec 1 (Series.count serie)) as [Hn|Hn]; [|now left].
    destruct Hvar as [->|(v & Hv & ->)]; [now left|].
    right. exists (sqrt v). split; [apply sqrt_pos | now apply fsqrt_Fin].
  - intros Hlt. now destruct (Nat.ltb_spec 1 (Series.count serie)); [lia|].
Qed.

(** ** ic_media: what the result depends on *)

(** X8: [ic_media] depends on its sample only through the non-missing
    coerced values: it returns the same estimate and interval on the sample
    made of those values alone, so cleaning a sample before the call, as the
    Welch panel does, changes nothing. *)
Theorem ic_media_ignores_missing (amostra : list cell) (alpha : R) :
  ic_media amostra alpha
  = ic_media (map CNum (Series.dropna (to_numeric amostra))) alpha.
Proof.
  rewrite !ic_media_unfold. cbv zeta.
  rewrite to_numeric_CNum, (dropna_id (Series.dropna _)) by apply dropna_notnan.
  reflexivity.
Qed.

Lemma Series_mean_singleton (v : float) : notnan v -> Series.mean [v] = v.
Proof.
  intros Hv. unfold Series.mean, Series.count, Series.sum, Np.sum, of_nat.
  unfold notnan in Hv. simpl. rewrite Hv. simpl. destruct v; fcases.
Qed.

(** X9: a sample with exactly one non-missing coerced value [v] gets [v]
    itself as point estimate and the undefined interval (NaN, NaN). *)
Theorem ic_media_single_value (amostra : list cell) (alpha : R) (v : float) :
  Series.dropna (to_numeric amostra) = [v] ->
  ic_media amostra alpha = (v, (NaN, NaN)).
Proof.
  intros H. rewrite ic_media_unfold. cbv zeta. rewrite H. simpl.
  rewrite Series_mean_singleton; [reflexivity|].
  pose proof (dropna_notnan (to_numeric amostra)) as Hnn. rewrite H in Hnn.
  now inversion Hnn.
Qed.

(** ** tabela_tipos on any table *)

Lemma floor_bounds (x : R) : (IZR (up x - 1) <= x < IZR (up x - 1) + 1)%R.
Proof.
  destruct (archimed x) as [H1 H2]. rewrite minus_IZR. lra.
Qed.

Lemma round_half_even_IZR (k : Z) : round_half_even (IZR k) = k.
Proof.
  unfold round_half_even.
  assert (E : up (IZR k) = (k + 1)%Z).
  { symmetry. apply tech_up; rewrite plus_IZR; lra. }
  rewrite E. replace (k + 1 - 1)%Z with k by lia.
  unfold Rltb. destruct (Rlt_dec (IZR k - IZR k) (1 / 2)); [reflexivity|].
  exfalso. lra.
Qed.

Lemma round_half_even_range (x : R) (N : Z) :
  (0 <= x <= IZR N)%R -> (0 <= round_half_even x <= N)%Z.
Proof.
  intros [H0 HN]. pose proof (floor_bounds x) as [Hf1 Hf2].
  unfold round_half_even. set (f := (up x - 1)%Z) in *.
  assert (Hf0 : (0 <= f)%Z).
  { assert (IZR (-1) < IZR f)%R by (simpl; lra). apply lt_IZR in H. lia. }
  assert (HfN : (f <= N)%Z) by (apply le_IZR; lra).
  assert (Hup : (IZR f + 1 / 2 <= x)%R -> (f + 1 <= N)%Z).
  { intros H. assert (IZR f < IZR N)%R by lra. apply lt_IZR in H1. lia. }
  unfold Rltb.
  destruct (Rlt_dec (x - IZR f) (1 / 2)); [lia|].
  assert (f + 1 <= N)%Z by (apply Hup; lra).
  destruct (Rlt_dec (1 / 2) (x - IZR f)); [lia|].
  destruct (Z.even f); lia.
Qed.

Lemma round2_percent (x : R) :
  (0 <= x <= 100)%R ->
  exists q, round2 (Fin x) = Fin q /\ (0 <= q <= 100)%R.
Proof.
  intros Hx. unfold round2. eexists. split; [reflexivity|].
  destruct (round_half_even_range (x * 100) 10000) as [H0 H1]; [simpl; lra|].
  apply IZR_le in H0, H1. simpl in H0, H1. lra.
Qed.

Lemma round2_100 : round2 (Fin 100) = Fin 100.
Proof.
  unfold round2. replace (100 * 100)%R with (IZR 10000) by (simpl; lra).
  rewrite round_half_even_IZR. f_equal. simpl. lra.
Qed.

(** X2: on a table with distinct labels whose columns all have one cell per
    row, the type report has one row per column, in column order, holding
    the column's label and dtype and a percentage of missing values between
    0 and 100; the percentage is 0.0 for a column without missing cell and
    100.0 for a column of a non-empty table whose cells are all missing. *)
Theorem tabela_tipos_report (df : DataFrame) :
  NoDup (names df) -> aligned df ->
  exists rows,
    tabela_tipos df = Ok rows /\
    Forall2 (fun p r =>
               tipo_coluna r = fst p /\ tipo_dtype r = dtype (snd p) /\
               exists q, pct_nulos r = Fin q /\ (0 <= q <= 100)%R /\
                 (forallb (fun c => negb (isna c)) (cells (snd p)) = true ->
                  q = 0%R) /\
                 ((0 < len df)%nat -> forallb isna (cells (snd p)) = true ->
                  q = 100%R))
            (columns df) rows.
Proof.
  intros Hnd Hal.
  set (row := fun (p : string * column) =>
     let nulls := length (filter isna (cells (snd p))) in
     mkTipo (fst p) (dtype (snd p))
       (round2 match len df with
               | O => Fin 0
               | S _ => fmul (fdiv (of_nat nulls) (of_nat (len df))) (Fin 100)
               end)).
  exists (map row (columns df)). split.
  - unfold tabela_tipos. apply mapM_Forall2. unfold names.
    apply Forall2_map_same. intros [c col] Hin. cbn [fst snd].
    now rewrite (getitem_In df c col Hnd Hin).
  - rewrite <- (map_id (columns df)) at 1. apply Forall2_map_same.
    intros [c col] Hin. unfold row. cbn [fst snd tipo_coluna tipo_dtype pct_nulos].
    split; [reflexivity|]. split; [reflexivity|].
    unfold aligned in Hal. rewrite Forall_forall in Hal.
    pose proof (Hal _ Hin) as Hlen. cbn [snd] in Hlen.
    pose proof (filter_length_le isna (cells col)) as Hle.
    destruct (len df) as [|k] eqn:En.
    + rewrite round2_0. exists 0%R. repeat split; try lra. intros; lia.
    + assert (Hpos : (0 < INR (S k))%R) by (apply lt_0_INR; lia).
      unfold of_nat. rewrite fdiv_Fin by lra. simpl fmul.
      set (nulls := length (filter isna (cells col))) in *.
      assert (Hn0 : (0 <= INR nulls)%R) by apply pos_INR.
      assert (Hn1 : (INR nulls <= INR (S k))%R) by (apply le_INR; lia).
      assert (Hq : (0 <= INR nulls / INR (S k) * 100 <= 100)%R).
      { assert (0 <= INR nulls / INR (S k) <= 1)%R; [|lra].
        split.
        - apply Rmult_le_pos; [lra|]. left. now apply Rinv_0_lt_compat.
        - apply (Rmult_le_reg_r (INR (S k))); [lra|].
          unfold Rdiv. rewrite Rmult_assoc, Rinv_l by lra. lra. }
      destruct (round2_percent _ Hq) as (q & Eq & Hq01).
      exists q. split; [exact Eq|]. split; [exact Hq01|]. split.
      * intros Hnone.
        assert (E0 : nulls = 0%nat).
        { unfold nulls. rewrite filter_none; [reflexivity|].
          intros a Ha. rewrite forallb_forall in Hnone.
          specialize (Hnone a Ha). now destruct (isna a). }
        rewrite E0 in Eq. change (INR 0) with 0%R in Eq.
        replace (0 / INR (S k) * 100)%R with 0%R in Eq by (unfold Rdiv; ring).
        rewrite round2_0 in Eq. now injection Eq.
      * intros _ Hall.
        assert (E1 : nulls = S k).
        { unfold nulls. rewrite <- Hlen. clear -Hall.
          induction (cells col) as [|a l IH]; simpl in *; [reflexivity|].
          apply andb_true_iff in Hall as [Ha Hl]. rewrite Ha. simpl.
          now rewrite IH. }
        rewrite E1 in Eq.
        replace (INR (S k) / INR (S k) * 100)%R with 100%R in Eq by (field; lra).
        rewrite round2_100 in Eq. now injection Eq.
Qed.

(** ** carregar_excel: what loading keeps *)

Lemma names_setitem (df : DataFrame) (c : string) (col : column) :
  names (setitem df c col) = names df.
Proof.
  unfold names, setitem. simpl. rewrite map_map. apply map_ext.
  intros p. now destruct (String.eqb (fst p) c).
Qed.

Lemma getitem_Ok_In (df : DataFrame) (c : string) (col : column) :
  getitem df c = Ok col -> In (c, col) (columns df).
Proof.
  unfold getitem.
  destruct (filter _ (columns df)) as [|p [|q l]] eqn:E; try discriminate.
  intros H; injection H as <-.
  assert (Hp : In p (filter (fun p => String.eqb (fst p) c) (columns df)))
    by (rewrite E; now left).
  apply filter_In in Hp as [Hp Hc]. apply String.eqb_eq in Hc.
  destruct p as [c' col']. simpl in *. now subst c'.
Qed.

Lemma to_datetime_length (col col' : column) :
  to_datetime col = Ok col' -> length (cells col') = length (cells col).
Proof.
  unfold to_datetime. destruct (to_datetime_raises col); [discriminate|].
  intros H; injection H as <-. simpl. apply length_map.
Qed.

Lemma parse_date_column_keeps (df : DataFrame) (c : string) :
  names (parse_date_column df c) = names df /\
  index (parse_date_column df c) = index df /\
  (aligned df -> aligned (parse_date_column df c)).
Proof.
  unfold parse_date_column.
  destruct (getitem df c) as [col|e] eqn:Hg; simpl bind; [|now repeat split].
  destruct (to_datetime col) as [col'|e] eqn:Ht; [|now repeat split].
  split; [apply names_setitem|]. split; [reflexivity|].
  intros Hal. unfold aligned, setitem, len in *. simpl.
  rewrite Forall_forall in *. intros p Hp.
  apply in_map_iff in Hp as (q & <- & Hq).
  destruct (String.eqb (fst q) c); [|now apply Hal].
  simpl. rewrite (to_datetime_length _ _ Ht).
  apply getitem_Ok_In in Hg. exact (Hal _ Hg).
Qed.

Lemma fold_parse_date_keeps (cs : list string) (df : DataFrame) :
  names (fold_left parse_date_column cs df) = names df /\
  index (fold_left parse_date_column cs df) = index df /\
  (aligned df -> aligned (fold_left parse_date_column cs df)).
Proof.
  revert df. induction cs as [|c cs IH]; intros df; simpl; [now repeat split|].
  destruct (parse_date_column_keeps df c) as (Hn & Hi & Ha).
  destruct (IH (parse_date_column df c)) as (Hn' & Hi' & Ha').
  repeat split; try congruence. auto.
Qed.

(** X3: a file that reads as a table whose column labels are all text (the
    tables of this model; on a label that is not a string [c.lower()] raises
    before the date loop) is loaded without error, whatever the date parser
    does; the loaded table has the rows of the table read, its labels are
    the labels read that do not start with "Unnamed", in the same order,
    distinct if they were distinct, and every column still has one cell per
    row if that held of the table read. *)
Theorem carregar_excel_keeps (f : file) (raw : DataFrame) :
  read_excel f = Ok raw ->
  exists df,
    carregar_excel (Some f) = Ok df /\
    index df = index raw /\
    names df = filter (fun c => negb (unnamed c)) (names raw) /\
    (NoDup (names raw) -> NoDup (names df)) /\
    (aligned raw -> aligned df).
Proof.
  intros Hread. unfold carregar_excel. rewrite Hread. simpl bind.
  eexists. split; [reflexivity|].
  destruct (fold_parse_date_keeps (filter possivel_data (names raw)) raw)
    as (Hn & Hi & Ha).
  split; [exact Hi|]. split; [now rewrite names_select_columns, Hn|]. split.
  - intros Hnd. rewrite names_select_columns, Hn. now apply NoDup_filter.
  - intros Hal. specialize (Ha Hal). unfold aligned, select_columns, len in *.
    simpl. rewrite Forall_forall in *. intros p Hp.
    apply filter_In in Hp as [Hp _]. now apply Ha.
Qed.

(** ** The statistics tab *)

Lemma first_failure {A : Type} (P : A -> Prop) (l : list A) :
  (forall a, {P a} + {~ P a}) ->
  Forall P l \/
  exists pre a post, l = pre ++ a :: post /\ Forall P pre /\ ~ P a.
Proof.
  intros dec. induction l as [|a l IH]; [left; constructor|].
  destruct (dec a) as [Ha|Ha].
  - destruct IH as [IH|(pre & b & post & -> & Hpre & Hb)].
    + left. now constructor.
    + right. exists (a :: pre), b, post. repeat split; auto.
  - right. exists [], a, l. repeat split; auto.
Qed.

Lemma mapM_resumo_missing (df : DataFrame) (pre post : list string) (c : string) :
  Forall (fun c' => In c' (names df)) pre -> NoDup (names df) ->
  ~ In c (names df) ->
  mapM (resumo_coluna df) (pre ++ c :: post) = Raise (KeyError c).
Proof.
  intros Hpre Hnd Hc. apply mapM_app_Raise.
  - eapply Forall_impl; [|exact Hpre]. intros c' Hin.
    apply in_map_iff in Hin as ([c'' col] & E & Hin). simpl in E. subst c''.
    destruct (resumo_coluna_spec df c' col (getitem_In df c' col Hnd Hin))
      as (r & Hr & _). now exists r.
  - unfold resumo_coluna. now rewrite (getitem_absent df c Hc).
Qed.

Lemma mapM_ext_in {A B : Type} (f g : A -> result B) (l : list A) :
  (forall a, In a l -> f a = g a) -> mapM f l = mapM g l.
Proof.
  induction l as [|a l IH]; simpl; intros H; [reflexivity|].
  rewrite (H a) by now left. rewrite IH; [reflexivity|].
  intros; apply H; now right.
Qed.

(** The columns [df[cols]] holds when every label is present once. *)
Lemma getitem_cols_present (df : DataFrame) (cols : list string) :
  NoDup (names df) -> Forall (fun c => In c (names df)) cols ->
  exists cs,
    getitem_cols df cols = Ok (mkDataFrame (index df) cs) /\
    map fst cs = cols /\
    Forall (fun p => getitem df (fst p) = Ok (snd p)) cs.
Proof.
  intros Hnd Hall. unfold getitem_cols.
  induction Hall as [|c cols Hc _ (cs & Hcs & Hfst & Hget)].
  - exists []. repeat split; constructor.
  - apply in_map_iff in Hc as ([c' col] & E & Hin). simpl in E. subst c'.
    exists ((c, col) :: cs). simpl.
    rewrite (NoDup_fst_filter _ c col Hnd Hin). simpl.
    destruct (mapM _ cols) as [css|e]; simpl in *; [|discriminate].
    injection Hcs as <-. repeat split.
    + now rewrite Hfst.
    + constructor; [|assumption]. simpl. now apply getitem_In.
Qed.

Lemma getitem_from_cols (df : DataFrame) (cs : list (string * column))
    (idx : list Z) (c : string) :
  NoDup (map fst cs) -> Forall (fun p => getitem df (fst p) = Ok (snd p)) cs ->
  In c (map fst cs) ->
  getitem (mkDataFrame idx cs) c = getitem df c.
Proof.
  intros Hnd Hget Hc.
  apply in_map_iff in Hc as ([c' col] & E & Hin). simpl in E. subst c'.
  rewrite (getitem_In (mkDataFrame idx cs) c col Hnd Hin).
  rewrite Forall_forall in Hget. symmetry. exact (Hget _ Hin).
Qed.

(** Summarising the selected columns of the projected table is summarising
    them in the table itself. *)
Lemma estatisticas_basicas_projection (df : DataFrame) (cols : list string) :
  NoDup (names df) -> NoDup cols ->
  (sub <- getitem_cols df cols ;; estatisticas_basicas sub cols)
  = estatisticas_basicas df cols.
Proof.
  intros Hnd Hcols.
  destruct (first_failure (fun c => In c (names df)) cols)
    as [Hall|(pre & c & post & -> & Hpre & Hc)].
  { intros a. apply in_dec, string_dec. }
  - destruct (getitem_cols_present df cols Hnd Hall) as (cs & -> & Hfst & Hget).
    simpl bind. unfold estatisticas_basicas.
    destruct cols as [|c0 cols']; [reflexivity|].
    apply mapM_ext_in. intros c Hc. unfold resumo_coluna.
    rewrite (getitem_from_cols df cs (index df) c); auto; now rewrite Hfst.
  - assert (E : getitem_cols df (pre ++ c :: post) = Raise (KeyError c)).
    { unfold getitem_cols. erewrite mapM_app_Raise; [reflexivity| |].
      - eapply Forall_impl; [|exact Hpre]. intros c' Hin.
        apply in_map_iff in Hin as ([c'' col] & E & Hin). simpl in E. subst c''.
        rewrite (NoDup_fst_filter _ c' col Hnd Hin). eauto.
      - rewrite filter_none; [reflexivity|].
        intros p Hp. apply String.eqb_neq. intros E. apply Hc.
        rewrite <- E. now apply in_map. }
    rewrite E. simpl bind. unfold estatisticas_basicas.
    rewrite (mapM_resumo_missing df pre post c Hpre Hnd Hc).
    destruct pre; reflexivity.
Qed.

(** X7: in a table with distinct labels, for a selection without repeated
    label and a non-empty list of numeric columns, the statistics tab shows
    the summary of the first [max_cols] selected columns of the table itself
    (projecting the table first changes nothing, errors included up to the
    exception's class), asks for a selection when none is left, and a
    summary it shows has one row per retained label, in order, so at most
    [max_cols] rows. *)
Theorem resumo_aba_summary (df : DataFrame) (colunas_num : list string)
    (max_cols : nat) (escolha : list string) :
  NoDup (names df) -> NoDup escolha -> colunas_num <> [] ->
  (firstn max_cols escolha = [] ->
   resumo_aba df colunas_num max_cols escolha = Ok SelecioneColuna) /\
  (firstn max_cols escolha <> [] ->
   resumo_aba df colunas_num max_cols escolha
   = (rows <- estatisticas_basicas df (firstn max_cols escolha) ;;
      Ok (Resumo rows))) /\
  (forall rows,
     resumo_aba df colunas_num max_cols escolha = Ok (Resumo rows) ->
     map coluna rows = firstn max_cols escolha /\
     (length rows <= max_cols)%nat).
Proof.
  intros Hnd Hesc Hnum.
  assert (Hsel : NoDup (firstn max_cols escolha)).
  { rewrite <- (firstn_skipn max_cols escolha) in Hesc.
    now apply NoDup_app_remove_r in Hesc. }
  assert (Hcase : firstn max_cols escolha <> [] ->
    resumo_aba df colunas_num max_cols escolha
    = (rows <- estatisticas_basicas df (firstn max_cols escolha) ;;
       Ok (Resumo rows))).
  { intros Hne. unfold resumo_aba.
    destruct colunas_num as [|c0 cn]; [congruence|].
    cbv zeta. rewrite <- (estatisticas_basicas_projection df _ Hnd Hsel).
    destruct (firstn max_cols escolha) as [|c cs]; [congruence|].
    destruct (getitem_cols df (c :: cs)); reflexivity. }
  split; [|split; [exact Hcase|]].
  - intros E. unfold resumo_aba. destruct colunas_num; [congruence|].
    cbv zeta. now rewrite E.
  - intros rows H.
    destruct (firstn max_cols escolha) as [|c cs] eqn:E.
    + unfold resumo_aba in H. destruct colunas_num; [congruence|].
      cbv zeta in H. rewrite E in H. discriminate.
    + rewrite <- E in *. rewrite Hcase in H by (rewrite E; discriminate).
      destruct (estatisticas_basicas df (firstn max_cols escolha)) as [rs|e] eqn:Er;
        simpl in H; [|discriminate].
      injection H as <-. apply estatisticas_basicas_Forall2 in Er.
      assert (Hmap : map coluna rs = firstn max_cols escolha).
      { clear -Er. induction Er as [|c' r cs' rs' Hr _ IH]; [reflexivity|].
        simpl. rewrite IH. f_equal.
        apply resumo_coluna_Ok_inv in Hr as (col & _ & Hc & _). exact Hc. }
      split; [exact Hmap|].
      rewrite <- (length_map coluna), Hmap. apply firstn_le_length.
Qed.

(** ** amostrar_df: what sampling keeps *)

Lemma index_rows_at_NoDup (df : DataFrame) (locs : list nat) :
  NoDup (index df) -> NoDup locs -> Forall (fun i => (i < len df)%nat) locs ->
  NoDup (index (rows_at df locs)).
Proof.
  intros Hidx Hlocs Hlt. unfold rows_at. simpl.
  apply NoDup_map_NoDup_ForallPairs; [|assumption].
  intros i j Hi Hj E. rewrite Forall_forall in Hlt.
  apply (proj1 (NoDup_nth (index df) 0%Z) Hidx); auto; apply Hlt; assumption.
Qed.

(** The table a non-negative request returns. *)
Lemma amostrar_df_rows (g : rng) (df : DataFrame) (n seed : Z) :
  choice_without_replacement -> aligned df -> (0 <= n)%Z ->
  exists df',
    amostrar_df g df n seed = Ok df' /\
    names df' = names df /\
    map (fun p => dtype (snd p)) (columns df')
    = map (fun p => dtype (snd p)) (columns df) /\
    len df' = Nat.min (Z.to_nat n) (len df) /\
    aligned df' /\
    incl (index df') (index df) /\
    (NoDup (index df) -> NoDup (index df')).
Proof.
  intros Hch Hal H0. unfold amostrar_df.
  destruct (Z.leb_spec (Z.of_nat (len df)) n) as [Hn|Hn].
  - exists df. repeat split; auto using incl_refl. lia.
  - unfold sample.
    destruct (Z.ltb_spec n 0); [lia|].
    destruct (Z.ltb_spec (Z.of_nat (len df)) n); [lia|].
    destruct (Hch (RandomState seed) (len df) (Z.to_nat n))
      as (Hlen & Hnd & Hlt); [lia|].
    set (locs := rng_choice (RandomState seed) (len df) (Z.to_nat n)) in *.
    exists (rows_at df locs). split; [now apply take_in_range|].
    split; [|split; [|split; [|split; [|split]]]].
    + unfold names, rows_at. simpl. rewrite map_map. reflexivity.
    + unfold rows_at. simpl. rewrite map_map. reflexivity.
    + unfold len at 1, rows_at. simpl. rewrite length_map, Hlen. lia.
    + unfold aligned, rows_at, len. simpl. apply Forall_forall.
      intros p Hp. apply in_map_iff in Hp as (q & <- & _). simpl.
      now rewrite !length_map.
    + unfold rows_at. simpl. intros z Hz.
      apply in_map_iff in Hz as (i & <- & Hi).
      rewrite Forall_forall in Hlt. apply nth_In. exact (Hlt _ Hi).
    + intros Hidx. now apply index_rows_at_NoDup.
Qed.

(** X10: with a generator whose choice returns distinct positions, on a
    table with one cell per row in every column, a request for n >= 0 rows
    never fails and returns a table with the same labels and dtypes, with
    min(n, rows) rows, still with one cell per row in every column, whose row
    labels are row labels of the table, distinct if those were distinct; a
    negative request raises ValueError. *)
Theorem amostrar_df_keeps :
  choice_without_replacement ->
  forall (g : rng) (df : DataFrame) (n seed : Z), aligned df ->
  ((0 <= n)%Z ->
   exists df',
     amostrar_df g df n seed = Ok df' /\
     names df' = names df /\
     map (fun p => dtype (snd p)) (columns df')
     = map (fun p => dtype (snd p)) (columns df) /\
     len df' = Nat.min (Z.to_nat n) (len df) /\
     aligned df' /\
     incl (index df') (index df) /\
     (NoDup (index df) -> NoDup (index df'))) /\
  ((n < 0)%Z -> amostrar_df g df n seed = Raise ValueError).
Proof.
  intros Hch g df n seed Hal. split.
  - intros H0. now apply amostrar_df_rows.
  - intros Hneg. unfold amostrar_df.
    destruct (Z.leb_spec (Z.of_nat (len df)) n); [lia|].
    unfold sample. now destruct (Z.ltb_spec n 0); [|lia].
Qed.

(** X11: for every sample size the sidebar slider offers (500 to 20000),
    the table used by the charts and tests is always obtained: it has the
    labels of the loaded table and at most as many rows as the table (and,
    when sampling is switched on, as the slider says), and it is the loaded
    table itself when sampling is switched off or the table has at most 500
    rows. *)
Theorem df_viz_bounded :
  choice_without_replacement ->
  forall (g : rng) (df : DataFrame) (USAR_AMOSTRA : bool) (TAM_AMOSTRA : Z),
  aligned df -> (500 <= TAM_AMOSTRA <= 20000)%Z ->
  exists viz,
    df_viz g df USAR_AMOSTRA TAM_AMOSTRA = Ok viz /\
    names viz = names df /\
    (len viz <= len df)%nat /\
    (USAR_AMOSTRA = true -> (Z.of_nat (len viz) <= TAM_AMOSTRA)%Z) /\
    (USAR_AMOSTRA = false -> viz = df) /\
    ((len df <= 500)%nat -> viz = df).
Proof.
  intros Hch g df usar tam Hal Htam. unfold df_viz. destruct usar.
  - destruct (amostrar_df_rows g df tam 42 Hch Hal) as (viz & E & Hn & _ & Hlen & _);
      [lia|].
    exists viz. split; [exact E|]. split; [exact Hn|].
    split; [lia|]. split; [intros _; lia|]. split; [discriminate|].
    intros Hsmall. unfold amostrar_df in E.
    destruct (Z.leb_spec (Z.of_nat (len df)) tam); [|lia]. congruence.
  - exists df. repeat split; auto. discriminate.
Qed.

(** ** The Welch tab: categories and groups *)

Lemma existsb_eqb_In (x : string) (l : list string) :
  existsb (String.eqb x) l = true <-> In x l.
Proof.
  rewrite existsb_exists. split.
  - intros (y & Hy & E). apply String.eqb_eq in E. now subst y.
  - intros H. exists x. split; [assumption | apply String.eqb_refl].
Qed.

Lemma unique_from_In (seen l : list string) (x : string) :
  In x (unique_from seen l) <-> In x l /\ ~ In x seen.
Proof.
  revert seen. induction l as [|y l IH]; intros seen; simpl.
  - split; [contradiction | now intros [? _]].
  - destruct (existsb (String.eqb y) seen) eqn:E.
    + apply existsb_eqb_In in E. rewrite IH. split.
      * intros [H1 H2]. auto.
      * intros [[->|H1] H2]; [contradiction | auto].
    + assert (Hy : ~ In y seen).
      { intros H. apply existsb_eqb_In in H. congruence. }
      simpl. rewrite IH. simpl. split.
      * intros [->|[H1 H2]]; [auto|]. split; [now right|]. intros H. apply H2. now right.
      * intros [[->|H1] H2]; [now left|].
        destruct (string_dec y x) as [->|Hne]; [now left|].
        right. split; [assumption|]. intros [H|H]; [contradiction | contradiction].
Qed.

Lemma unique_from_NoDup (seen l : list string) : NoDup (unique_from seen l).
Proof.
  revert seen. induction l as [|y l IH]; intros seen; simpl; [constructor|].
  destruct (existsb (String.eqb y) seen); [apply IH|].
  constructor; [|apply IH].
  rewrite unique_from_In. intros [_ H]. apply H. now left.
Qed.

Lemma NoDup_first_two (l : list string) :
  NoDup l -> (2 <= length l)%nat -> nth 0 l ""%string <> nth 1 l ""%string.
Proof.
  intros Hnd Hlen E.
  apply (proj1 (NoDup_nth l ""%string) Hnd) in E; [discriminate | lia | lia].
Qed.

Lemma categorias_In (df_viz : DataFrame) (grupo : string) (col : column)
    (cats : list string) (s : string) :
  getitem df_viz grupo = Ok col -> categorias df_viz grupo = Ok cats ->
  (In s cats <->
   exists c, In c (cells col) /\ isna c = false /\ astype_str c = s).
Proof.
  intros Hg H. unfold categorias in H. rewrite Hg in H. simpl in H.
  injection H as <-. unfold unique.
  rewrite unique_from_In, in_map_iff. split.
  - intros [(c & <- & Hc) _]. apply filter_In in Hc as [Hc Hna].
    exists c. repeat split; auto. now destruct (isna c).
  - intros (c & Hc & Hna & <-). split; [|auto].
    exists c. split; [reflexivity|]. apply filter_In. split; [assumption|].
    now rewrite Hna.
Qed.

Lemma categorias_NoDup (df_viz : DataFrame) (grupo : string) (cats : list string) :
  categorias df_viz grupo = Ok cats -> NoDup cats.
Proof.
  unfold categorias. destruct (getitem df_viz grupo); simpl; [|discriminate].
  intros H; injection H as <-. apply unique_from_NoDup.
Qed.

(** X12: the categories offered for a group column are distinct, they are
    exactly the texts of its non-missing cells, and so the two groups
    preselected by the tab (the first and the second category), when there
    are at least two categories, are different labels. *)
Theorem categorias_distinct (df_viz : DataFrame) (grupo : string)
    (col : column) (cats : list string) :
  getitem df_viz grupo = Ok col ->
  categorias df_viz grupo = Ok cats ->
  NoDup cats /\
  (forall s, In s cats <->
     exists c, In c (cells col) /\ isna c = false /\ astype_str c = s) /\
  ((2 <= length cats)%nat -> nth 0 cats ""%string <> nth 1 cats ""%string).
Proof.
  intros Hg H. pose proof (categorias_NoDup _ _ _ H) as Hnd.
  split; [exact Hnd|]. split.
  - intros s. now apply (categorias_In df_viz grupo col).
  - now apply NoDup_first_two.
Qed.

Lemma boolean_mask_length_le {A : Type} (mask : list bool) (l : list A) :
  (length (boolean_mask mask l) <= length l)%nat.
Proof.
  revert l. induction mask as [|m mask IH]; intros [|a l]; simpl; try lia.
  specialize (IH l). destruct m; simpl; lia.
Qed.

Lemma boolean_mask_disjoint {A B : Type} (p1 p2 : B -> bool) (g : list B)
    (l : list A) :
  (forall b, p1 b = true -> p2 b = true -> False) ->
  (length (boolean_mask (map p1 g) l) + length (boolean_mask (map p2 g) l)
   <= length l)%nat.
Proof.
  intros Hdis. revert l. induction g as [|b g IH]; intros [|a l]; simpl; try lia.
  specialize (IH l). specialize (Hdis b).
  destruct (p1 b), (p2 b); simpl; try lia; exfalso; auto.
Qed.

Lemma dropna_to_numeric_length (l : list cell) :
  (length (Series.dropna (to_numeric l)) <= length l)%nat.
Proof.
  unfold Series.dropna, to_numeric.
  rewrite <- (length_map to_numeric_cell l). apply filter_length_le.
Qed.

(** X13: the values of two different group labels come from different rows:
    the two group sizes add up to at most the number of cells of the metric
    column, which is the number of rows of a table with one cell per row in
    every column; in particular each group has at most that many values. *)
Theorem grupos_disjuntos (df_viz : DataFrame) (metrica grupo cat1 cat2 : string)
    (df_a df_b : list float) (m : column) :
  grupo_valores df_viz metrica grupo cat1 = Ok df_a ->
  grupo_valores df_viz metrica grupo cat2 = Ok df_b ->
  getitem df_viz metrica = Ok m ->
  cat1 <> cat2 ->
  (length df_a + length df_b <= length (cells m))%nat /\
  (aligned df_viz -> (length df_a + length df_b <= len df_viz)%nat).
Proof.
  intros Ha Hb Hm Hne. unfold grupo_valores in Ha, Hb.
  destruct (getitem df_viz grupo) as [g|e]; simpl in Ha, Hb; [|discriminate].
  rewrite Hm in Ha, Hb. simpl in Ha, Hb.
  injection Ha as <-. injection Hb as <-.
  assert (H : (length (Series.dropna (to_numeric (boolean_mask
                  (map (fun c => String.eqb (astype_str c) cat1) (cells g))
                  (cells m))))
               + length (Series.dropna (to_numeric (boolean_mask
                  (map (fun c => String.eqb (astype_str c) cat2) (cells g))
                  (cells m))))
               <= length (cells m))%nat).
  { etransitivity.
    - apply Nat.add_le_mono; apply dropna_to_numeric_length.
    - apply boolean_mask_disjoint. intros c H1 H2.
      apply String.eqb_eq in H1, H2. congruence. }
  split; [exact H|].
  intros Hal. apply getitem_Ok_In in Hm.
  unfold aligned in Hal. rewrite Forall_forall in Hal.
  specialize (Hal _ Hm). simpl in Hal. now rewrite <- Hal.
Qed.

Lemma welch_painel_Resultado_inv (df_viz : DataFrame)
    (metrica grupo cat1 cat2 : string) (min_amostra : nat) (r : welch_result) :
  welch_painel df_viz metrica grupo cat1 cat2 min_amostra = Ok (Resultado r) ->
  exists df_a df_b,
    grupo_valores df_viz metrica grupo cat1 = Ok df_a /\
    grupo_valores df_viz metrica grupo cat2 = Ok df_b /\
    (min_amostra <= length df_a)%nat /\ (min_amostra <= length df_b)%nat.
Proof.
  unfold welch_painel.
  destruct (grupo_valores df_viz metrica grupo cat1) as [a|e]; simpl; [|discriminate].
  destruct (grupo_valores df_viz metrica grupo cat2) as [b|e]; simpl; [|discriminate].
  destruct (Nat.leb_spec min_amostra (length a));
    destruct (Nat.leb_spec min_amostra (length b)); simpl; try discriminate.
  intros _. exists a, b. auto.
Qed.

(** X14: when the same label is chosen for group A and group B, a computed
    result has equal means and equal intervals, a mean difference that is 0
    or undefined, and a statistic that is 0 or undefined: a group is never
    reported as different from itself. *)
Theorem welch_same_group (df_viz : DataFrame) (metrica grupo cat : string)
    (min_amostra : nat) (r : welch_result) :
  welch_painel df_viz metrica grupo cat cat min_amostra = Ok (Resultado r) ->
  media_a r = media_b r /\ ic_a r = ic_b r /\
  (delta r = Fin 0 \/ delta r = NaN) /\
  (t_stat r = Fin 0 \/ t_stat r = NaN).
Proof.
  intros H.
  destruct (welch_painel_Resultado_inv _ _ _ _ _ _ _ H)
    as (a & b & Ha & Hb & Hna & Hnb).
  assert (b = a) by congruence. subst b.
  pose proof (grupo_valores_notnan _ _ _ _ _ Ha) as Hnn.
  destruct (welch_painel_Resultado _ _ _ _ _ _ _ _ Ha Ha Hna Hna)
    as (r0 & Hr0 & Hd & Ht & _).
  assert (r0 = r) by congruence. subst r0.
  assert (Hdelta : delta r = Fin 0 \/ delta r = NaN).
  { rewrite Hd. destruct (Np.mean a); simpl; auto.
    left. f_equal. lra. }
  split; [|split; [|split; [exact Hdelta|]]].
  - unfold welch_painel in H. rewrite Ha in H. simpl in H.
    destruct (_ && _); [|discriminate].
    destruct (ic_media (map CNum a) (5 / 100)), (ttest_ind a a).
    injection H as <-. reflexivity.
  - unfold welch_painel in H. rewrite Ha in H. simpl in H.
    destruct (_ && _); [|discriminate].
    destruct (ic_media (map CNum a) (5 / 100)), (ttest_ind a a).
    injection H as <-. reflexivity.
  - rewrite Ht. destruct a as [|x a'] eqn:Ea; [right; apply ttest_ind_empty_l|].
    rewrite <- Ea in *.
    assert (Hane : a <> []) by (rewrite Ea; discriminate).
    rewrite ttest_ind_stat by assumption.
    rewrite <- Hd.
    destruct (welch_denominator_cases a a Hnn Hnn Hane Hane) as [->|(y & Hy & ->)].
    + right. now destruct (delta r).
    + destruct Hdelta as [->| ->]; [|now right].
      simpl. unfold Reqb. destruct (Req_dec_T y 0) as [->|Hy0].
      * right. now destruct (Req_dec_T 0 0).
      * left. f_equal. unfold Rdiv. ring.
Qed.

(** X15: with the preselected groups (positions 0 and 1), a test shown by
    the Welch tab compares two different labels, each of them the text of a
    non-missing cell of the group column, on the metric and group that were
    selected; and the tab reports too few groups only when the group column
    has fewer than two distinct non-missing texts. *)
Theorem welch_aba_default_groups (df_viz : DataFrame)
    (metrica grupo : option string) (min_amostra : nat) :
  (forall c1 c2 o,
     welch_aba df_viz metrica grupo 0 1 min_amostra = Ok (Teste c1 c2 o) ->
     c1 <> c2 /\
     exists m g col,
       metrica = Some m /\ grupo = Some g /\ getitem df_viz g = Ok col /\
       (exists x, In x (cells col) /\ isna x = false /\ astype_str x = c1) /\
       (exists y, In y (cells col) /\ isna y = false /\ astype_str y = c2) /\
       welch_painel df_viz m g c1 c2 min_amostra = Ok o) /\
  (welch_aba df_viz metrica grupo 0 1 min_amostra = Ok PoucosGrupos ->
   exists g cats,
     grupo = Some g /\ categorias df_viz g = Ok cats /\ (length cats < 2)%nat).
Proof.
  unfold welch_aba.
  destruct (truthy metrica && truthy grupo); [|split; intros; discriminate].
  destruct metrica as [m|], grupo as [g|]; try (split; intros; discriminate).
  destruct (categorias df_viz g) as [cats|e] eqn:Hc; simpl bind;
    [|split; intros; discriminate].
  destruct (Nat.ltb_spec (length cats) 2) as [Hlt|Hge].
  { split; [intros; discriminate|]. intros _. exists g, cats. auto. }
  split; [|cbv zeta; destruct (welch_painel _ _ _ _ _ _); discriminate].
  intros c1 c2 o H. cbv zeta in H.
  destruct (welch_painel df_viz m g (nth 0 cats ""%string) (nth 1 cats ""%string)
              min_amostra) as [o'|e] eqn:Hw; simpl in H; [|discriminate].
  injection H as <- <- <-.
  assert (Hg : exists col, getitem df_viz g = Ok col).
  { unfold categorias in Hc. destruct (getitem df_viz g); [eauto | discriminate]. }
  destruct Hg as (col & Hg).
  split; [apply NoDup_first_two; [now apply (categorias_NoDup df_viz g) | lia]|].
  exists m, g, col. repeat split; auto.
  - apply (categorias_In df_viz g col cats); auto. apply nth_In. lia.
  - apply (categorias_In df_viz g col cats); auto. apply nth_In. lia.
Qed.

(** ** estatisticas_basicas: the order of the rows *)

Lemma fle_antisym (a b : float) : fleP a b -> fleP b a -> a = b.
Proof. unfold fleP, fle. destruct a, b; fcases. Qed.

Lemma Permutation_filter {A : Type} (p : A -> bool) (l l' : list A) :
  Permutation l l' -> Permutation (filter p l) (filter p l').
Proof.
  induction 1 as [|x l l' _ IH|x y l|l l' l'' _ IH1 _ IH2]; simpl.
  - constructor.
  - destruct (p x); [now constructor | assumption].
  - destruct (p x), (p y); try reflexivity. apply perm_swap.
  - etransitivity; eassumption.
Qed.

(** Two sorted arrangements of the same values are the same list. *)
Lemma sorted_perm_unique (l1 l2 : list float) :
  Sorted fleP l1 -> Sorted fleP l2 -> Permutation l1 l2 -> l1 = l2.
Proof.
  assert (Htr : Relations_1.Transitive fleP) by (intros a b c; apply fle_trans).
  revert l2. induction l1 as [|a l1 IH]; intros l2 H1 H2 Hp.
  - apply Permutation_nil in Hp. now subst.
  - destruct l2 as [|b l2]; [symmetry in Hp; now apply Permutation_nil in Hp|].
    apply (Sorted_StronglySorted Htr) in H1 as S1.
    apply (Sorted_StronglySorted Htr) in H2 as S2.
    apply StronglySorted_inv in S1 as [_ Ha]. apply StronglySorted_inv in S2 as [_ Hb].
    rewrite Forall_forall in Ha, Hb.
    assert (Eab : a = b).
    { assert (Hina : In a (b :: l2)) by (eapply Permutation_in; [exact Hp | now left]).
      assert (Hinb : In b (a :: l1))
        by (eapply Permutation_in; [symmetry; exact Hp | now left]).
      destruct Hina as [->|Hina]; [reflexivity|].
      destruct Hinb as [->|Hinb]; [reflexivity|].
      apply fle_antisym; auto. }
    subst b. f_equal. apply IH.
    + now inversion H1.
    + now inversion H2.
    + now apply Permutation_cons_inv in Hp.
Qed.

Lemma sort_values_Permutation (l l' : list float) :
  Forall notnan l -> Permutation l l' ->
  Series.sort_values l = Series.sort_values l'.
Proof.
  intros Hl Hp. apply sorted_perm_unique.
  - now apply sort_values_sorted.
  - apply sort_values_sorted. eapply Permutation_Forall; eassumption.
  - rewrite !sort_values_perm. exact Hp.
Qed.

Lemma is_minimum_unique (l : list float) (a b : float) :
  is_minimum l a -> is_minimum l b -> a = b.
Proof.
  intros [Ha Hla] [Hb Hlb]. rewrite Forall_forall in Hla, Hlb.
  apply fle_antisym; auto.
Qed.

Lemma is_maximum_unique (l : list float) (a b : float) :
  is_maximum l a -> is_maximum l b -> a = b.
Proof.
  intros [Ha Hla] [Hb Hlb]. rewrite Forall_forall in Hla, Hlb.
  apply fle_antisym; auto.
Qed.

(** Count, median, minimum and maximum of a Series do not depend on the
    order of its entries. *)
Lemma Series_order_free (s s' : list float) :
  Permutation s s' ->
  Series.count s = Series.count s' /\
  Series.median s = Series.median s' /\
  Series.min s = Series.min s' /\
  Series.max s = Series.max s'.
Proof.
  intros Hp.
  assert (Hd : Permutation (Series.dropna s) (Series.dropna s'))
    by now apply Permutation_filter.
  pose proof (dropna_notnan s) as Hnn.
  split; [now apply Permutation_length|]. split; [|split].
  - unfold Series.median. now rewrite (sort_values_Permutation _ _ Hnn Hd).
  - destruct (Series.dropna s) as [|x xs] eqn:E.
    + apply Permutation_nil in Hd. unfold Series.min. now rewrite E, Hd.
    + assert (Hne : Series.dropna s <> []) by (rewrite E; discriminate).
      assert (Hne' : Series.dropna s' <> []).
      { intros E'. rewrite E' in Hd. symmetry in Hd.
        apply Permutation_nil in Hd. discriminate. }
      pose proof (Series_min_spec s Hne) as [Hin Hall].
      apply (is_minimum_unique (Series.dropna s')); [|now apply Series_min_spec].
      rewrite E in Hin, Hall. split.
      * eapply Permutation_in; eassumption.
      * eapply Permutation_Forall; eassumption.
  - destruct (Series.dropna s) as [|x xs] eqn:E.
    + apply Permutation_nil in Hd. unfold Series.max. now rewrite E, Hd.
    + assert (Hne : Series.dropna s <> []) by (rewrite E; discriminate).
      assert (Hne' : Series.dropna s' <> []).
      { intros E'. rewrite E' in Hd. symmetry in Hd.
        apply Permutation_nil in Hd. discriminate. }
      pose proof (Series_max_spec s Hne) as [Hin Hall].
      apply (is_maximum_unique (Series.dropna s')); [|now apply Series_max_spec].
      rewrite E in Hin, Hall. split.
      * eapply Permutation_in; eassumption.
      * eapply Permutation_Forall; eassumption.
Qed.

(** X6: when two tables hold the same cells in each requested column, in
    any order of the rows, their summaries agree row by row on the label,
    the count, the median, the minimum and the maximum. *)
Theorem estatisticas_basicas_row_order (df df' : DataFrame) (cols : list string)
    (rows rows' : list resumo_row) :
  (forall c, In c cols ->
     exists col col', getitem df c = Ok col /\ getitem df' c = Ok col' /\
                      Permutation (cells col) (cells col')) ->
  estatisticas_basicas df cols = Ok rows ->
  estatisticas_basicas df' cols = Ok rows' ->
  Forall2 (fun r r' =>
             coluna r = coluna r' /\ r_count r = r_count r' /\
             r_median r = r_median r' /\
             r_min r = r_min r' /\ r_max r = r_max r')
          rows rows'.
Proof.
  intros Hperm H H'.
  apply estatisticas_basicas_Forall2 in H, H'.
  revert rows' H'. induction H as [|c r cols rows Hr _ IH]; intros rows' H'.
  - inversion H'. constructor.
  - inversion H' as [|? r' ? rows'' Hr' Hrest]; subst.
    constructor.
    + destruct (Hperm c) as (col & col' & Hg & Hg' & Hp); [now left|].
      unfold resumo_coluna in Hr, Hr'. rewrite Hg in Hr. rewrite Hg' in Hr'.
      simpl in Hr, Hr'. injection Hr as <-. injection Hr' as <-. simpl.
      assert (Hs : Permutation (to_numeric (cells col)) (to_numeric (cells col')))
        by now apply Permutation_map.
      destruct (Series_order_free _ _ Hs) as (-> & -> & -> & ->).
      repeat split.
    + apply IH; [|assumption]. intros c' Hc'. apply Hperm. now right.
Qed.

End App.

(** * The statements at the sample inputs *)



Lemma ic_media_no_values_witness :
  Series.count (to_numeric Sample.parse_float [CStr "n/d"; CNA; CNum NaN]) = 0%nat /\
  ic_media Sample.parse_float Sample.t_ppf [CStr "n/d"; CNA; CNum NaN] (5 / 100)
  = (NaN, (NaN, NaN)).
Proof.
  split; [reflexivity|]. apply ic_media_no_values. reflexivity.
Defined.


Lemma estoque_Qty :
  getitem Sample.estoque "Qty"
  = Ok (mkColumn "object"
          [Sample.num 1; Sample.num 2; CStr "n/d"; Sample.num 3; Sample.num 4;
           CNA; Sample.num 5; Sample.num 100]).
Proof. reflexivity. Qed.

Lemma estatisticas_basicas_summary_witness :
  Forall (fun c => exists col, getitem Sample.estoque c = Ok col) ["Qty"%string] /\
  exists rows,
    estatisticas_basicas Sample.parse_float Sample.estoque ["Qty"%string] = Ok rows /\
    map r_count rows = [6%nat].
Proof.
  assert (H : Forall (fun c => exists col, getitem Sample.estoque c = Ok col)
                     ["Qty"%string]).
  { constructor; [|constructor]. eexists. exact estoque_Qty. }
  split; [exact H|].
  destruct (proj2 (estatisticas_basicas_summary Sample.parse_float Sample.estoque
                     ["Qty"%string]) H) as (rows & Hrows & Hall).
  exists rows. split; [exact Hrows|].
  inversion Hall as [|c r cs rs (col & Hcol & Hspec) Hnil]; subst.
  inversion Hnil; subst.
  rewrite estoque_Qty in Hcol. injection Hcol as <-.
  destruct Hspec as (_ & Hcount & _). simpl. now rewrite Hcount.
Defined.


Lemma sample_choice_without_replacement :
  choice_without_replacement Sample.rng Sample.rng_choice.
Proof.
  intros st len n Hn. unfold Sample.rng_choice.
  destruct (Nat.even st); repeat split;
    try apply length_seq; try apply seq_NoDup;
    apply Forall_forall; intros i Hi; apply in_seq in Hi; lia.
Qed.

Lemma vendas_aligned : aligned Sample.vendas.
Proof. repeat constructor. Qed.

Lemma amostrar_df_sample_witness :
  choice_without_replacement Sample.rng Sample.rng_choice /\
  aligned Sample.vendas /\
  (0 <= 3 < Z.of_nat (len Sample.vendas))%Z /\
  exists locs,
    amostrar_df Sample.rng Sample.RandomState Sample.rng_choice 0%nat
      Sample.vendas 3 42
    = Ok (rows_at Sample.vendas locs) /\
    length locs = 3%nat /\ NoDup locs.
Proof.
  split; [exact sample_choice_without_replacement|].
  split; [exact vendas_aligned|].
  assert (Hn : (0 <= 3 < Z.of_nat (len Sample.vendas))%Z) by (simpl; lia).
  split; [exact Hn|].
  destruct (amostrar_df_sample Sample.rng Sample.RandomState Sample.rng_choice
              sample_choice_without_replacement 0%nat Sample.vendas 3%Z 42%Z
              vendas_aligned) as (_ & H & _).
  destruct (H Hn) as (locs & Hlen & Hnd & _ & Heq & _).
  exists locs. repeat split; assumption.
Defined.

Lemma vendas_A :
  grupo_valores Sample.parse_float Sample.astype_str Sample.vendas
    "Valor" "Categoria" "A" = Ok (map Fin [10; 12; 11; 13]%R).
Proof. reflexivity. Qed.

Lemma vendas_B :
  grupo_valores Sample.parse_float Sample.astype_str Sample.vendas
    "Valor" "Categoria" "B" = Ok (map Fin [20; 22; 21; 19]%R).
Proof. reflexivity. Qed.

Lemma Rmean_vendas_A : Rmean [10; 12; 11; 13]%R = (23 / 2)%R.
Proof. unfold Rmean, Rsum. simpl. field. Qed.

Lemma Rmean_vendas_B : Rmean [20; 22; 21; 19]%R = (41 / 2)%R.
Proof. unfold Rmean, Rsum. simpl. field. Qed.

Lemma Rvar1_vendas_A : Rvar1 [10; 12; 11; 13]%R = (5 / 3)%R.
Proof. unfold Rvar1. rewrite Rmean_vendas_A. unfold Rsum. simpl. field. Qed.

Lemma Rvar1_vendas_B : Rvar1 [20; 22; 21; 19]%R = (5 / 3)%R.
Proof. unfold Rvar1. rewrite Rmean_vendas_B. unfold Rsum. simpl. field. Qed.

Lemma Rwelch_se2_vendas :
  Rwelch_se2 [10; 12; 11; 13]%R [20; 22; 21; 19]%R = (5 / 6)%R.
Proof.
  unfold Rwelch_se2. rewrite Rvar1_vendas_A, Rvar1_vendas_B. simpl. field.
Qed.

Lemma Rwelch_t_vendas :
  Rwelch_t [10; 12; 11; 13]%R [20; 22; 21; 19]%R = (- 9 / sqrt (5 / 6))%R.
Proof.
  unfold Rwelch_t.
  rewrite Rwelch_se2_vendas, Rmean_vendas_A, Rmean_vendas_B.
  f_equal. lra.
Qed.

Lemma Rwelch_df_vendas :
  Rwelch_df [10; 12; 11; 13]%R [20; 22; 21; 19]%R = 6%R.
Proof.
  unfold Rwelch_df.
  rewrite Rwelch_se2_vendas, Rvar1_vendas_A, Rvar1_vendas_B. simpl. field.
Qed.

Lemma welch_painel_threshold_witness :
  welch_painel Sample.parse_float Sample.astype_str Sample.t_ppf Sample.stdtr
    Sample.vendas "Valor" "Categoria" "A" "B" 20
  = Ok (Insuficiente 4 4) /\
  exists r,
    welch_painel Sample.parse_float Sample.astype_str Sample.t_ppf Sample.stdtr
      Sample.vendas "Valor" "Categoria" "A" "B" 3 = Ok (Resultado r) /\
    media_a r = Fin (23 / 2) /\ media_b r = Fin (41 / 2) /\
    delta r = Fin (-9) /\
    t_stat r = Fin (- 9 / sqrt (5 / 6)) /\
    p_val r = two_tailed Sample.stdtr (Fin 6) (Fin (- 9 / sqrt (5 / 6))).
Proof.
  split.
  - apply (welch_painel_threshold Sample.parse_float Sample.astype_str
             Sample.t_ppf Sample.stdtr Sample.vendas "Valor" "Categoria"
             "A" "B" 20 _ _ vendas_A vendas_B).
    left. simpl. lia.
  - destruct (welch_painel_threshold Sample.parse_float Sample.astype_str
                Sample.t_ppf Sample.stdtr Sample.vendas "Valor" "Categoria"
                "A" "B" 3 _ _ vendas_A vendas_B) as (_ & _ & H).
    destruct H as (r & Hr & _ & Hfin); [simpl; lia|].
    destruct (Hfin [10; 12; 11; 13]%R [20; 22; 21; 19]%R eq_refl eq_refl)
      as (Hma & Hmb & Hd & Ht & Hp).
    + simpl; lia.
    + simpl; lia.
    + left. rewrite Rvar1_vendas_A. lra.
    + rewrite Rmean_vendas_A in Hma. rewrite Rmean_vendas_B in Hmb.
      rewrite Rmean_vendas_A, Rmean_vendas_B in Hd.
      replace (23 / 2 - 41 / 2)%R with (-9)%R in Hd by lra.
      rewrite Rwelch_t_vendas in Ht.
      rewrite Rwelch_t_vendas, Rwelch_df_vendas in Hp.
      exists r. repeat split; assumption.
Defined.


Ltac nodup_strings :=
  repeat (apply NoDup_cons;
          [simpl; intros H; repeat (destruct H as [H|H]; [discriminate|]); exact H|]);
  apply NoDup_nil.

Lemma pedidos_names_NoDup : NoDup (names Sample.pedidos).
Proof. nodup_strings. Qed.

Lemma carregar_excel_dates_witness :
  Sample.read_excel Sample.pedidos = Ok Sample.pedidos /\
  NoDup (names Sample.pedidos) /\
  exists df,
    carregar_excel Sample.parse_datetime Sample.to_datetime_raises
      DataFrame Sample.read_excel (Some Sample.pedidos) = Ok df /\
    getitem df "OrderDate"
    = Ok (mkColumn "string" [CStr "2024-01-05"; CStr "unknown"]) /\
    getitem df "Data_Pedido"
    = Ok (mkColumn "datetime64[ns]" [CTime 1704412800000000000; CNaT]).
Proof.
  split; [reflexivity|]. split; [exact pedidos_names_NoDup|].
  destruct (carregar_excel_dates Sample.parse_datetime Sample.to_datetime_raises
              DataFrame Sample.read_excel Sample.pedidos Sample.pedidos
              eq_refl pedidos_names_NoDup)
    as (_ & _ & df & Hdf & _ & Horder & Hdata).
  exists df. split; [exact Hdf|]. split.
  - apply Horder. simpl. now left.
  - apply (Hdata "Data_Pedido"%string
             (mkColumn "string" [CStr "2024-01-05"; CStr "unknown"]));
      [simpl; right; now left | reflexivity | reflexivity | reflexivity].
Defined.

(** C6, the claim as stated, fails: loading a table whose text column
    "OrderDate" holds a date and an entry that is not a date returns that
    column as read; its type is not date-time and the entry is not
    missing. *)
Lemma orderdate_left_as_read :
  possivel_data "OrderDate" = false /\
  exists df col,
    carregar_excel Sample.parse_datetime Sample.to_datetime_raises
      DataFrame Sample.read_excel (Some Sample.pedidos) = Ok df /\
    getitem df "OrderDate" = Ok col /\
    dtype col = "string"%string /\
    dtype col <> "datetime64[ns]"%string /\
    cells col = [CStr "2024-01-05"; CStr "unknown"] /\
    existsb isna (cells col) = false.
Proof.
  split; [reflexivity|].
  eexists. eexists. split; [reflexivity|]. split; [reflexivity|].
  repeat split. discriminate.
Qed.

Lemma sample_read_excel_finds_file :
  read_excel_finds_file DataFrame Sample.read_excel.
Proof. intros f H. discriminate. Qed.

Lemma carregar_excel_errors_witness :
  read_excel_finds_file DataFrame Sample.read_excel /\
  carregar_excel Sample.parse_datetime Sample.to_datetime_raises
    DataFrame Sample.read_excel None = Raise FileNotFoundError /\
  carregar_excel Sample.parse_datetime Sample.to_datetime_raises
    DataFrame Sample.read_excel (Some Sample.pedidos) <> Raise FileNotFoundError.
Proof.
  split; [exact sample_read_excel_finds_file|]. split.
  - apply (carregar_excel_errors Sample.parse_datetime Sample.to_datetime_raises
             DataFrame Sample.read_excel sample_read_excel_finds_file None).
    reflexivity.
  - intros H.
    apply (carregar_excel_errors Sample.parse_datetime Sample.to_datetime_raises
             DataFrame Sample.read_excel sample_read_excel_finds_file
             (Some Sample.pedidos)) in H.
    discriminate.
Defined.

Lemma vazio_names_NoDup : NoDup (names Sample.vazio).
Proof. nodup_strings. Qed.

Lemma tabela_tipos_no_rows_witness :
  NoDup (names Sample.vazio) /\ len Sample.vazio = 0%nat /\
  tabela_tipos Sample.vazio
  = Ok [mkTipo "Qty" "Int64" (Fin 0); mkTipo "Status" "string" (Fin 0)].
Proof.
  split; [exact vazio_names_NoDup|]. split; [reflexivity|].
  apply (tabela_tipos_no_rows Sample.vazio vazio_names_NoDup eq_refl).
Defined.






(** ** The further properties at the sample inputs *)

Lemma estoque_names_NoDup : NoDup (names Sample.estoque).
Proof. nodup_strings. Qed.

Lemma vendas_names_NoDup : NoDup (names Sample.vendas).
Proof. nodup_strings. Qed.

Lemma estatisticas_basicas_missing_column_witness :
  Forall (fun c' => exists col, getitem Sample.estoque c' = Ok col) ["Qty"%string] /\
  ~ In "Preco"%string (names Sample.estoque) /\
  estatisticas_basicas Sample.parse_float Sample.estoque
    ["Qty"; "Preco"; "Qty"]%string
  = Raise (KeyError "Preco").
Proof.
  assert (H1 : Forall (fun c' => exists col, getitem Sample.estoque c' = Ok col)
                      ["Qty"%string]).
  { constructor; [|constructor]. eexists. exact estoque_Qty. }
  assert (H2 : ~ In "Preco"%string (names Sample.estoque)).
  { simpl. intros [H|[]]. discriminate. }
  split; [exact H1|]. split; [exact H2|].
  exact (estatisticas_basicas_missing_column Sample.parse_float Sample.estoque
           ["Qty"%string] ["Qty"%string] "Preco" H1 H2).
Defined.

Lemma estatisticas_basicas_spread_witness :
  exists rows,
    estatisticas_basicas Sample.parse_float Sample.estoque ["Qty"%string] = Ok rows /\
    Forall (fun r => r_std r = fsqrt (r_var r)) rows.
Proof.
  destruct (estatisticas_basicas Sample.parse_float Sample.estoque ["Qty"%string])
    as [rows|e] eqn:E; [|discriminate].
  exists rows. split; [reflexivity|].
  pose proof (estatisticas_basicas_spread Sample.parse_float Sample.estoque
                ["Qty"%string] rows E) as Hall.
  inversion Hall as [|c r cs rs (col & _ & _ & Hstd & _) Hnil]; subst.
  inversion Hnil; subst. constructor; [exact Hstd | constructor].
Defined.

Lemma ic_media_single_value_witness :
  Series.dropna (to_numeric Sample.parse_float [CStr "n/d"; Sample.num 4; CNA])
  = [Fin 4] /\
  ic_media Sample.parse_float Sample.t_ppf [CStr "n/d"; Sample.num 4; CNA] (5 / 100)
  = (Fin 4, (NaN, NaN)).
Proof.
  split; [reflexivity|].
  apply (ic_media_single_value Sample.parse_float Sample.t_ppf). reflexivity.
Defined.

Lemma tabela_tipos_report_witness :
  NoDup (names Sample.vendas) /\ aligned Sample.vendas /\
  exists rows,
    tabela_tipos Sample.vendas = Ok rows /\
    map tipo_coluna rows = ["Categoria"; "Valor"]%string.
Proof.
  split; [exact vendas_names_NoDup|]. split; [exact vendas_aligned|].
  destruct (tabela_tipos_report Sample.vendas vendas_names_NoDup vendas_aligned)
    as (rows & Hrows & Hall).
  exists rows. split; [exact Hrows|].
  inversion Hall as [|p1 r1 ps1 rs1 (H1 & _) Hall1]; subst.
  inversion Hall1 as [|p2 r2 ps2 rs2 (H2 & _) Hall2]; subst.
  inversion Hall2; subst. simpl. now rewrite H1, H2.
Defined.

Lemma carregar_excel_keeps_witness :
  Sample.read_excel Sample.pedidos = Ok Sample.pedidos /\
  exists df,
    carregar_excel Sample.parse_datetime Sample.to_datetime_raises
      DataFrame Sample.read_excel (Some Sample.pedidos) = Ok df /\
    names df = ["OrderDate"; "Data_Pedido"]%string /\
    index df = [0; 1]%Z.
Proof.
  split; [reflexivity|].
  destruct (carregar_excel_keeps Sample.parse_datetime Sample.to_datetime_raises
              DataFrame Sample.read_excel Sample.pedidos Sample.pedidos eq_refl)
    as (df & Hdf & Hidx & Hnames & _).
  exists df. split; [exact Hdf|]. split; [exact Hnames | exact Hidx].
Defined.

Lemma resumo_aba_summary_witness :
  NoDup (names Sample.estoque) /\ NoDup ["Qty"%string] /\
  ["Qty"%string] <> [] /\
  resumo_aba Sample.parse_float Sample.estoque ["Qty"%string] 5 ["Qty"%string]
  = (rows <- estatisticas_basicas Sample.parse_float Sample.estoque ["Qty"%string] ;;
     Ok (Resumo rows)).
Proof.
  assert (H2 : NoDup ["Qty"%string]) by nodup_strings.
  assert (H3 : ["Qty"%string] <> []) by discriminate.
  split; [exact estoque_names_NoDup|]. split; [exact H2|]. split; [exact H3|].
  destruct (resumo_aba_summary Sample.parse_float Sample.estoque ["Qty"%string] 5
              ["Qty"%string] estoque_names_NoDup H2 H3) as (_ & H & _).
  apply H. discriminate.
Defined.

Lemma amostrar_df_keeps_witness :
  choice_without_replacement Sample.rng Sample.rng_choice /\
  aligned Sample.vendas /\ (0 <= 3)%Z /\
  exists df',
    amostrar_df Sample.rng Sample.RandomState Sample.rng_choice 0%nat
      Sample.vendas 3 42 = Ok df' /\
    names df' = names Sample.vendas /\ len df' = 3%nat.
Proof.
  split; [exact sample_choice_without_replacement|].
  split; [exact vendas_aligned|]. split; [lia|].
  destruct (amostrar_df_keeps Sample.rng Sample.RandomState Sample.rng_choice
              sample_choice_without_replacement 0%nat Sample.vendas 3%Z 42%Z
              vendas_aligned) as (H & _).
  destruct H as (df' & E & Hn & _ & Hlen & _); [lia|].
  exists df'. split; [exact E|]. split; [exact Hn | exact Hlen].
Defined.

Lemma df_viz_bounded_witness :
  choice_without_replacement Sample.rng Sample.rng_choice /\
  aligned Sample.vendas /\ (500 <= 500 <= 20000)%Z /\
  df_viz Sample.rng Sample.RandomState Sample.rng_choice 0%nat
    Sample.vendas true 500 = Ok Sample.vendas.
Proof.
  split; [exact sample_choice_without_replacement|].
  split; [exact vendas_aligned|]. split; [lia|].
  destruct (df_viz_bounded Sample.rng Sample.RandomState Sample.rng_choice
              sample_choice_without_replacement 0%nat Sample.vendas true 500%Z
              vendas_aligned) as (viz & E & _ & _ & _ & _ & Hsmall); [lia|].
  rewrite E. f_equal. apply Hsmall. apply Nat.leb_le. reflexivity.
Defined.

Lemma vendas_Categoria :
  getitem Sample.vendas "Categoria"
  = Ok (mkColumn "string"
          [CStr "A"; CStr "A"; CStr "A"; CStr "A";
           CStr "B"; CStr "B"; CStr "B"; CStr "B"]).
Proof. reflexivity. Qed.

Lemma vendas_categorias :
  categorias Sample.astype_str Sample.vendas "Categoria" = Ok ["A"; "B"]%string.
Proof. reflexivity. Qed.

Lemma categorias_distinct_witness :
  categorias Sample.astype_str Sample.vendas "Categoria" = Ok ["A"; "B"]%string /\
  NoDup ["A"; "B"]%string /\
  nth 0 ["A"; "B"]%string ""%string <> nth 1 ["A"; "B"]%string ""%string.
Proof.
  split; [exact vendas_categorias|].
  destruct (categorias_distinct Sample.astype_str Sample.vendas "Categoria" _ _
              vendas_Categoria vendas_categorias) as (Hnd & _ & Hdiff).
  split; [exact Hnd|]. apply Hdiff. simpl. lia.
Defined.

Lemma vendas_Valor :
  getitem Sample.vendas "Valor"
  = Ok (mkColumn "Float64"
          [Sample.num 10; Sample.num 12; Sample.num 11; Sample.num 13;
           Sample.num 20; Sample.num 22; Sample.num 21; Sample.num 19]).
Proof. reflexivity. Qed.

Lemma grupos_disjuntos_witness :
  "A"%string <> "B"%string /\
  (length (map Fin [10; 12; 11; 13]%R) + length (map Fin [20; 22; 21; 19]%R)
   <= len Sample.vendas)%nat.
Proof.
  assert (Hne : "A"%string <> "B"%string) by discriminate.
  split; [exact Hne|].
  destruct (grupos_disjuntos Sample.parse_float Sample.astype_str Sample.vendas
              "Valor" "Categoria" "A" "B" _ _ _ vendas_A vendas_B vendas_Valor Hne)
    as (_ & H).
  exact (H vendas_aligned).
Defined.

Lemma welch_same_group_witness :
  exists r,
    welch_painel Sample.parse_float Sample.astype_str Sample.t_ppf Sample.stdtr
      Sample.vendas "Valor" "Categoria" "A" "A" 3 = Ok (Resultado r) /\
    media_a r = media_b r /\ (t_stat r = Fin 0 \/ t_stat r = NaN).
Proof.
  destruct (welch_painel_Resultado Sample.parse_float Sample.astype_str
              Sample.t_ppf Sample.stdtr Sample.vendas "Valor" "Categoria" "A" "A"
              3 _ _ vendas_A vendas_A) as (r & Hr & _);
    [simpl; lia | simpl; lia |].
  exists r. split; [exact Hr|].
  destruct (welch_same_group Sample.parse_float Sample.astype_str Sample.t_ppf
              Sample.stdtr Sample.vendas "Valor" "Categoria" "A" 3 r Hr)
    as (Hm & _ & _ & Ht).
  split; [exact Hm | exact Ht].
Defined.

Lemma estoque_invertido_Qty :
  getitem Sample.estoque_invertido "Qty"
  = Ok (mkColumn "object"
          [Sample.num 100; Sample.num 5; CNA; Sample.num 4; Sample.num 3;
           CStr "n/d"; Sample.num 2; Sample.num 1]).
Proof. reflexivity. Qed.

Lemma estatisticas_basicas_row_order_witness :
  exists rows rows',
    estatisticas_basicas Sample.parse_float Sample.estoque ["Qty"%string] = Ok rows /\
    estatisticas_basicas Sample.parse_float Sample.estoque_invertido ["Qty"%string]
    = Ok rows' /\
    Forall2 (fun r r' => r_median r = r_median r' /\ r_min r = r_min r'
                         /\ r_max r = r_max r') rows rows'.
Proof.
  destruct (estatisticas_basicas Sample.parse_float Sample.estoque ["Qty"%string])
    as [rows|e] eqn:E; [|discriminate].
  destruct (estatisticas_basicas Sample.parse_float Sample.estoque_invertido
              ["Qty"%string]) as [rows'|e] eqn:E'; [|discriminate].
  exists rows, rows'. split; [reflexivity|]. split; [reflexivity|].
  assert (Hperm : forall c, In c ["Qty"%string] ->
            exists col col', getitem Sample.estoque c = Ok col /\
              getitem Sample.estoque_invertido c = Ok col' /\
              Permutation (cells col) (cells col')).
  { intros c [<-|[]]. eexists. eexists.
    split; [exact estoque_Qty|]. split; [exact estoque_invertido_Qty|].
    simpl. exact (Permutation_rev _). }
  pose proof (estatisticas_basicas_row_order Sample.parse_float Sample.estoque
                Sample.estoque_invertido ["Qty"%string] rows rows' Hperm E E')
    as Hall.
  eapply Forall2_impl; [|exact Hall].
  intros r r' (_ & _ & H1 & H2 & H3). auto.
Defined.
